(** * Gomoku solver behind the GTP connection (gtp_connection.py)

    A shallow embedding of the solver part of [gtp_connection.py]: the
    coordinate helpers ([point_to_coord], [format_point], [move_to_coord]),
    the move orderer ([orderMoves]), the negamax searcher with its
    transposition table ([alphabeta_tt]), the iterative deepening driver
    ([iterativeDeepening]) and the [solve] command ([solve_cmd]).

    The board class, the transposition table class and the constants of
    [board_util] are not part of the file; they enter as parameters of the
    development (type classes [BoardOps], [TableOps] and [SyncOps], the
    numbers [MAXSIZE] and [INFINITY]).  A small Gomoku board and a table made of two
    finite maps instantiate them wherever a concrete run is needed. *)

From Stdlib Require Import ZArith List Bool Ascii String Decimal DecimalString DecimalZ Lia.
From Stdlib Require Import Permutation Sorted.
From stdpp Require Import base option gmap.
Import ListNotations.

Local Open Scope string_scope.
Local Open Scope Z_scope.

(** ** Python values used by the module *)

(** The exceptions the module raises or meets. *)
Inductive exn : Type :=
| ValueError (msg : string)
| AssertionError
| IndexError
| TypeError
| ZeroDivisionError
| OverflowError
| OSError (msg : string).

(** A computation that returns or raises. *)
Inductive result (A : Type) : Type :=
| Ok (a : A)
| Raise (e : exn).
Arguments Ok {A} a.
Arguments Raise {A} e.

Definition bind {A B : Type} (r : result A) (k : A -> result B) : result B :=
  match r with
  | Ok a => k a
  | Raise e => Raise e
  end.

Notation "'let!' x ':=' r 'in' k" := (bind r (fun x => k))
  (at level 10, x name, r at level 100, k at level 200).

(** Whether a bounded run came to its end. *)
Definition returned {A : Type} (o : option A) : bool :=
  match o with
  | Some _ => true
  | None => false
  end.

(** A move as the board utilities have it: the distinguished [PASS], a board
    point (an index of the one-dimensional board array) or, once transformed
    by [point_to_coord], a pair (row, col). *)
Inductive Move : Type :=
| PASS
| Point (p : Z)
| Coord (row col : Z).

(** *** Strings *)

Definition is_upper (c : ascii) : bool :=
  (65 <=? nat_of_ascii c)%nat && (nat_of_ascii c <=? 90)%nat.

(** [str.lower] on one ASCII character. *)
Definition lower_char (c : ascii) : ascii :=
  if is_upper c then ascii_of_nat (nat_of_ascii c + 32) else c.

(** [s.lower()], for ASCII text. *)
Fixpoint lower (s : string) : string :=
  match s with
  | EmptyString => EmptyString
  | String c r => String (lower_char c) (lower r)
  end.

(** [s[i]]: a negative index counts from the end, an index out of range
    raises IndexError. *)
Definition str_index (s : string) (i : Z) : result ascii :=
  let n := Z.of_nat (String.length s) in
  let j := if i <? 0 then i + n else i in
  if (j <? 0) || (n <=? j) then Raise IndexError
  else match String.get (Z.to_nat j) s with
       | Some c => Ok c
       | None => Raise IndexError
       end.

(** [s[1:]] *)
Definition str_tail (s : string) : string :=
  match s with
  | EmptyString => EmptyString
  | String _ r => r
  end.

(** [str(n)] for an integer. *)
Definition py_str (n : Z) : string := NilZero.string_of_int (Z.to_int n).

Definition is_digit (c : ascii) : bool :=
  (48 <=? nat_of_ascii c)%nat && (nat_of_ascii c <=? 57)%nat.

(** The ASCII characters that are white space for [str.lstrip] and
    [str.split]: 9 to 13 and 28 to 32. *)
Definition is_space (c : ascii) : bool :=
  let n := nat_of_ascii c in
  ((9 <=? n)%nat && (n <=? 13)%nat) || ((28 <=? n)%nat && (n <=? 32)%nat).

(** [s.lstrip()] *)
Fixpoint lstrip (s : string) : string :=
  match s with
  | EmptyString => EmptyString
  | String c r => if is_space c then lstrip r else s
  end.

(** The characters [int] skips around a literal, those of C's [isspace]:
    9 to 13 and the blank. The separators 28 to 31 are not among them. *)
Definition is_int_space (c : ascii) : bool :=
  let n := nat_of_ascii c in
  ((9 <=? n)%nat && (n <=? 13)%nat) || (n =? 32)%nat.

Fixpoint int_lstrip (s : string) : string :=
  match s with
  | EmptyString => EmptyString
  | String c r => if is_int_space c then int_lstrip r else s
  end.

Fixpoint int_rstrip (s : string) : string :=
  match s with
  | EmptyString => EmptyString
  | String c r =>
      match int_rstrip r with
      | EmptyString => if is_int_space c then EmptyString else String c EmptyString
      | r' => String c r'
      end
  end.

(** The digits of an integer literal: at least one digit, single underscores
    allowed between two digits only. [prev] tells whether the character just
    read was a digit. *)
Fixpoint literal_digits (prev : bool) (s : string) : option string :=
  match s with
  | EmptyString => if prev then Some EmptyString else None
  | String c r =>
      if Ascii.eqb c "_" then
        if prev then literal_digits false r else None
      else if is_digit c then option_map (String c) (literal_digits true r)
      else None
  end.

(** The default of [sys.int_max_str_digits]: [int] refuses a literal of
    more digits. *)
Definition int_max_str_digits : nat := 4300.

Definition literal_value (s : string) : option Z :=
  match literal_digits false s with
  | Some ds =>
      if (String.length ds <=? int_max_str_digits)%nat
      then option_map Z.of_uint (NilEmpty.uint_of_string ds)
      else None
  | None => None
  end.

(** [int(s)] in base ten for ASCII text: the white space around the literal
    is dropped, one sign is allowed; anything else raises ValueError, and so
    does a literal of more than [int_max_str_digits] digits. Of the message
    of the ValueError the opening words are kept; Python goes on with
    [repr(s)], and has another message for the literal that is too long. *)
Definition py_int (s : string) : result Z :=
  let t := int_rstrip (int_lstrip s) in
  let v := match t with
           | String "+" r => literal_value r
           | String "-" r => option_map Z.opp (literal_value r)
           | _ => literal_value t
           end in
  match v with
  | Some z => Ok z
  | None => Raise (ValueError (String.append "invalid literal for int() with base 10: " s))
  end.

(** ** Coordinates *)

Section Coordinates.

(** The largest board size, a constant of [board_util]. *)
Variable MAXSIZE : Z.

(** [point_to_coord]: [divmod(point, boardsize + 1)], [PASS] left alone. *)
Definition point_to_coord (point : Move) (boardsize : Z) : result Move :=
  match point with
  | PASS => Ok PASS
  | Point p =>
      let NS := boardsize + 1 in
      if NS =? 0 then Raise ZeroDivisionError
      else Ok (Coord (p / NS) (p mod NS))
  | Coord _ _ => Raise TypeError
  end.

Definition column_letters : string := "ABCDEFGHJKLMNOPQRSTUVWXYZ".

(** [format_point] *)
Definition format_point (move : Move) : result string :=
  if negb (MAXSIZE <=? 25) then Raise AssertionError
  else match move with
       | PASS => Ok "PASS"
       | Coord row col =>
           if negb ((0 <=? row) && (row <? MAXSIZE))
              || negb ((0 <=? col) && (col <? MAXSIZE))
           then Raise (ValueError "")
           else let! c := str_index column_letters (col - 1) in
                Ok (String c (py_str row))
       | Point _ => Raise TypeError
       end.

Definition quote : string := String "034" EmptyString.

(** The [try] block of [move_to_coord]: column and row of the lowered
    text. *)
Definition parse_point (s : string) : result (Z * Z) :=
  let! col_c := str_index s 0 in
  let o := nat_of_ascii col_c in
  if negb ((97 <=? o)%nat && (o <=? 122)%nat) || Ascii.eqb col_c "i"
  then Raise (ValueError "")
  else
    let col := Z.of_nat o - 97 in
    let col := if (o <? 105)%nat then col + 1 else col in
    let! row := py_int (str_tail s) in
    if row <? 1 then Raise (ValueError "") else Ok (row, col).

(** [move_to_coord] *)
Definition move_to_coord (point_str : string) (board_size : Z) : result Move :=
  if negb ((2 <=? board_size) && (board_size <=? MAXSIZE))
  then Raise (ValueError "board_size out of range")
  else
    let s := lower point_str in
    if String.eqb s "pass" then Ok PASS
    else match parse_point s with
         | Raise IndexError | Raise (ValueError _) =>
             Raise (ValueError (String.append "invalid point: '" (String.append s "'")))
         | Raise e => Raise e
         | Ok (row, col) =>
             if negb ((col <=? board_size) && (row <=? board_size))
             then Raise (ValueError (String.append quote (String.append s (String.append quote " wrong coordinate"))))
             else Ok (Coord row col)
         end.

End Coordinates.

(** ** The collaborators: board and transposition table *)

(** The colour codes of [board_util]: EMPTY = 0, BLACK = 1, WHITE = 2,
    BORDER = 3. *)
Inductive Color : Type := EMPTY | BLACK | WHITE | BORDER.

Definition Color_eqb (a b : Color) : bool :=
  match a, b with
  | EMPTY, EMPTY | BLACK, BLACK | WHITE, WHITE | BORDER, BORDER => true
  | _, _ => false
  end.

(** [GoBoardUtil.opponent]: [WHITE + BLACK - color] on the colour codes. *)
Definition opponent (c : Color) : Color :=
  match c with
  | BLACK => WHITE
  | WHITE => BLACK
  | EMPTY => BORDER
  | BORDER => EMPTY
  end.

(** What the solver calls on a board. The board object is mutable in the
    source; here every mutation returns the new board. *)
Class BoardOps (B : Type) : Type := {
  size : B -> Z;
  current_player : B -> Color;
  get_empty_points : B -> list Z;
  play_move : B -> Z -> Color -> B;
  undoMove : B -> B;
  endOfGame : B -> bool;
  staticallyEvaluateForToPlay : B -> Z;
  hash : B -> Z
}.

(** What the solver calls on a transposition table. A looked-up entry is a
    pair: [result[0]] the recorded score, [result[1]] the recorded move
    ([PASS] standing for Python's None). *)
Class TableOps (T : Type) : Type := {
  tt_lookup : T -> Z -> option (option Z * Move);
  tt_storeScore : T -> Z -> Z -> T;
  tt_storeMove : T -> Z -> Z -> T
}.

(** A board object is a position together with the table it owns
    ([board.hashTable]). The searcher receives the two separately (its
    arguments [state] and [tt]), the driver passes the board's own table. *)
Record GoBoard (B T : Type) : Type := mkGoBoard {
  pos : B;
  hashTable : T
}.
Arguments mkGoBoard {B T} pos hashTable.
Arguments pos {B T} g.
Arguments hashTable {B T} g.

(** [board.copy()] and [board.updateHash(other)]. *)
Class SyncOps (B T : Type) : Type := {
  copy : GoBoard B T -> GoBoard B T;
  updateHash : GoBoard B T -> GoBoard B T -> GoBoard B T
}.

(** ** The solver *)

Section Solver.

Context {B T : Type} `{BoardOps B} `{TableOps T}.

(** The search bound, a constant of [board_util]. *)
Variable INFINITY : Z.

(** [storeScore] and [storeMove]: write under the state's hash and hand the
    value back. The table argument [tt] of the source is called [table]
    here, [tt] being the unit value. *)
Definition storeScore (table : T) (state : B) (score : Z) : Z * T :=
  (score, tt_storeScore table (hash state) score).

Definition storeMove (table : T) (state : B) (move : Z) : Z * T :=
  (move, tt_storeMove table (hash state) move).

(** *** Move ordering *)

(** The [while] loop of [orderMoves]: from [index], step over the entries
    whose heuristic is greater than the new one. [rest] is the part of
    [orderedMoves] from [index] on. *)
Fixpoint scan_index (rest : list (Z * Z)) (heuristic : Z) (index : nat) : nat :=
  match rest with
  | [] => index
  | t :: rest' =>
      if snd t >? heuristic then scan_index rest' heuristic (S index)
      else index
  end.

(** [l.insert(index, x)] *)
Definition list_insert_at {A : Type} (index : nat) (x : A) (l : list A) : list A :=
  firstn index l ++ x :: skipn index l.

(** One turn of the [for] loop of [orderMoves], after the heuristic is
    known. *)
Definition place_move (orderedMoves : list (Z * Z)) (m heuristic : Z) : list (Z * Z) :=
  if (0 <? length orderedMoves)%nat then
    let index := scan_index orderedMoves heuristic 0 in
    if (length orderedMoves <=? index)%nat
    then orderedMoves ++ [(m, heuristic)]
    else list_insert_at index (m, heuristic) orderedMoves
  else orderedMoves ++ [(m, heuristic)].

(** The [for] loop of [orderMoves] over the empty points. *)
Fixpoint orderMoves_loop (points : list Z) (state : B) (orderedMoves : list (Z * Z))
  : list (Z * Z) * B :=
  match points with
  | [] => (orderedMoves, state)
  | m :: points' =>
      let state := play_move state m (current_player state) in
      let heuristic := staticallyEvaluateForToPlay state in
      let orderedMoves := place_move orderedMoves m heuristic in
      let state := undoMove state in
      orderMoves_loop points' state orderedMoves
  end.

(** [orderMoves]: the list of (move, heuristic) pairs, and the board as the
    probes leave it. *)
Definition orderMoves (state : B) : list (Z * Z) * B :=
  orderMoves_loop (get_empty_points state) state [].

(** *** Alpha-beta with the transposition table *)

(** [result != None and result[0] == 5] *)
Definition recorded_win (result : option (option Z * Move)) : bool :=
  match result with
  | Some (Some v, _) => v =? 5
  | _ => false
  end.

(** The [for] loop of [alphabeta_tt] over the ordered moves; [search] is the
    recursive call. *)
Fixpoint alphabeta_loop
  (search : B -> Z -> Z -> T -> Z -> Z -> Z -> option (Z * (B * T)))
  (orderedMoves : list (Z * Z)) (state : B) (alpha beta : Z) (table : T)
  (depth depthMove depthLimit : Z) : option (Z * (B * T)) :=
  match orderedMoves with
  | [] =>
      let '(score, table) := storeScore table state alpha in Some (score, (state, table))
  | m :: orderedMoves' =>
      let m := fst m in
      let state := play_move state m (current_player state) in
      match search state (- beta) (- alpha) table (depth + 1) depthMove depthLimit with
      | None => None
      | Some (v, (state, table)) =>
          let value := - v in
          let winMove :=
            if value >? alpha
            then if (value =? 0) || (value =? 5) then Some m else None
            else None in
          let alpha := if value >? alpha then value else alpha in
          let state := undoMove state in
          let table := match winMove with
                    | Some w => snd (storeMove table state w)
                    | None => table
                    end in
          if value >=? beta
          then let '(score, table) := storeScore table state beta in Some (score, (state, table))
          else alphabeta_loop search orderedMoves' state alpha beta table
                 depth depthMove depthLimit
      end
  end.

(** [alphabeta_tt]. The recursion of the source is bounded by the game, not
    by its arguments; [fuel] bounds the nesting of calls, and [None] means
    the bound was too small. *)
Fixpoint alphabeta_tt (fuel : nat) (state : B) (alpha beta : Z) (table : T)
  (depth depthMove depthLimit : Z) : option (Z * (B * T)) :=
  match fuel with
  | O => None
  | S fuel' =>
      let result := tt_lookup table (hash state) in
      if recorded_win result then Some (5, (state, table))
      else if endOfGame state || (depth =? depthLimit) then
        let result := staticallyEvaluateForToPlay state in
        let '(score, table) := storeScore table state result in Some (score, (state, table))
      else
        let '(orderedMoves, state) := orderMoves state in
        alphabeta_loop (alphabeta_tt fuel') orderedMoves state alpha beta table
          depth depthMove depthLimit
  end.

(** *** Iterative deepening *)

(** [range(1, n + 1)] *)
Definition depth_limits (n : nat) : list Z := map Z.of_nat (seq 1 n).

(** One call of the searcher from the driver: the full window, depth 0, the
    board's own table. *)
Definition search_root (fuel : nat) (board : GoBoard B T) (d : Z)
  : option (Z * GoBoard B T) :=
  match alphabeta_tt fuel (pos board) (- INFINITY) INFINITY (hashTable board)
          0 INFINITY d with
  | None => None
  | Some (result, (state, table)) => Some (result, mkGoBoard state table)
  end.

(** The [for] loop of [iterativeDeepening]. *)
Fixpoint deepening_loop (fuel : nat) (limits : list Z) (board : GoBoard B T) (result : Z)
  : option (Z * GoBoard B T) :=
  match limits with
  | [] => Some (result, board)
  | d :: limits' =>
      match search_root fuel board d with
      | None => None
      | Some (result, board) =>
          if (result =? 5) || (result =? -5) then Some (result, board)
          else deepening_loop fuel limits' board result
      end
  end.

(** [iterativeDeepening] *)
Definition iterativeDeepening (fuel : nat) (board : GoBoard B T)
  : option (Z * GoBoard B T) :=
  let result := 1 in
  deepening_loop fuel (depth_limits (length (get_empty_points (pos board)))) board result.

End Solver.

(** ** The solve command *)

Section Command.

Context {B T : Type} `{BoardOps B} `{TableOps T} `{SyncOps B T}.

Variable MAXSIZE : Z.
Variable INFINITY : Z.

(** The fields of [GtpConnection] the command reads and writes; [stdout]
    collects what was written. *)
Record GtpConnection : Type := mkGtpConnection {
  board : GoBoard B T;
  time : Z;
  genMoveRunning : bool;
  stdout : list string
}.

Definition newline : string := String "010" EmptyString.

(** [respond]: writes ["= {}\n\n".format(response)]. *)
Definition respond (self : GtpConnection) (response : string) : GtpConnection :=
  mkGtpConnection (board self) (time self) (genMoveRunning self)
    (stdout self ++ [String.append "= " (String.append response (String.append newline newline))]).

Definition set_board (self : GtpConnection) (b : GoBoard B T) : GtpConnection :=
  mkGtpConnection b (time self) (genMoveRunning self) (stdout self).

(** [self.board.hashTable.lookup(self.board.hash())[1]]: subscripting None
    raises TypeError. *)
Definition recorded_move (self : GtpConnection) : result Move :=
  match tt_lookup (hashTable (board self)) (hash (pos (board self))) with
  | None => Raise TypeError
  | Some entry => Ok (snd entry)
  end.

(** The chain of [if]s that answers a finished search. *)
Definition solve_report (self : GtpConnection) (current_player : Color)
  (result : Z) (move : string) : GtpConnection :=
  if negb (genMoveRunning self) then
    if (result =? 5) && Color_eqb current_player BLACK
    then respond self (String.append "b " move)
    else if (result =? 5) && Color_eqb current_player WHITE
    then respond self (String.append "w " move)
    else if (result =? -5) && Color_eqb current_player BLACK
    then respond self "w"
    else if (result =? -5) && Color_eqb current_player WHITE
    then respond self "b"
    else respond self (String.append "draw " move)
  else self.

(** The [except] branch; the command then returns None, written [PASS]. *)
Definition solve_except (self : GtpConnection) : GtpConnection * Move :=
  (if negb (genMoveRunning self) then respond self "unknown" else self, PASS).

(** The text of the recommended move:
    [format_point(point_to_coord(lookup(...)[1], board_copy.size))]. *)
Definition solve_move (self : GtpConnection) (board_copy : GoBoard B T) : result string :=
  let! point := recorded_move self in
  let! coord := point_to_coord point (size (pos board_copy)) in
  format_point MAXSIZE coord.

(** [signal.alarm(seconds)] takes a C int: a number of seconds below
    -2^31 or from 2^31 on raises OverflowError. *)
Definition alarm_in_range (seconds : Z) : bool :=
  (- 2 ^ 31 <=? seconds) && (seconds <? 2 ^ 31).

(** [signal.alarm(seconds)] schedules a SIGALRM when it takes [seconds],
    unless [seconds] is 0, which only cancels a pending one. *)
Definition alarm_armed (seconds : Z) : bool :=
  alarm_in_range seconds && negb (seconds =? 0).

(** [handler]: the SIGALRM handler raises. *)
Definition handler {A : Type} : result A := Raise (OSError "Time's up!").

(** The [try] block of [solve_cmd]: the connection as the block leaves it,
    and the value it returns or the exception that ends it. The block
    begins with [signal.alarm(self.time)], which raises when the time limit
    is no C int. Wall-clock time is not modelled: [deadline] tells whether
    the budget runs out while the search is under way; when it does and an
    alarm is armed, [handler] runs inside the block. *)
Definition solve_try (fuel : nat) (deadline : bool) (self : GtpConnection)
  : option (GtpConnection * result Move) :=
  if negb (alarm_in_range (time self)) then Some (self, Raise OverflowError)
  else if alarm_armed (time self) && deadline then Some (self, handler)
  else
    let board_copy := copy (board self) in
    let current_player := current_player (pos board_copy) in
    match iterativeDeepening INFINITY fuel board_copy with
    | None => None
    | Some (result, board_copy) =>
        let self := set_board self (updateHash (board self) board_copy) in
        match solve_move self board_copy with
        | Raise e => Some (self, Raise e)
        | Ok move =>
            let self := solve_report self current_player result move in
            Some (self, recorded_move self)
        end
    end.

(** [solve_cmd]: the [try] block, and the bare [except] around it. *)
Definition solve_cmd (fuel : nat) (deadline : bool) (self : GtpConnection)
  : option (GtpConnection * Move) :=
  match solve_try fuel deadline self with
  | None => None
  | Some (self, Ok move) => Some (self, move)
  | Some (self, Raise _) => Some (solve_except self)
  end.

End Command.

Arguments GtpConnection B T : clear implicits.
Arguments mkGtpConnection {B T} board time genMoveRunning stdout.

(** ** A Gomoku board and a table, for concrete runs *)

Module Gomoku.

(** Modelled from the spec: the board class is not among the sources. The
    layout is the one [point_to_coord] presupposes: a one-dimensional array
    in which the point of (row, col) is [row * (size + 1) + col], rows and
    columns counted from 1, every other cell a border. Moves are applied and
    undone in place, the game ends with five in a row or a full board, and
    the static evaluation is 5 for a win of the side to move, -5 for a loss
    and 0 otherwise. *)
Record Position : Type := mkPosition {
  bsize : Z;
  cells : list Color;
  to_play : Color;
  played : list Z
}.

Definition on_board (n p : Z) : bool :=
  let NS := n + 1 in
  (1 <=? p / NS) && (p / NS <=? n) && (1 <=? p mod NS) && (p mod NS <=? n).

Definition empty_position (n : Z) : Position :=
  mkPosition n
    (map (fun i => if on_board n (Z.of_nat i) then EMPTY else BORDER)
       (seq 0 (Z.to_nat (n * n + 3 * (n + 1)))))
    BLACK [].

Definition color_at (b : Position) (p : Z) : Color :=
  if p <? 0 then BORDER else nth (Z.to_nat p) (cells b) BORDER.

Definition empty_points (b : Position) : list Z :=
  map Z.of_nat
    (List.filter (fun i => Color_eqb (nth i (cells b) BORDER) EMPTY)
       (seq 0 (length (cells b)))).

Definition play (b : Position) (p : Z) (c : Color) : Position :=
  if Color_eqb (color_at b p) EMPTY
  then mkPosition (bsize b) (<[Z.to_nat p := c]> (cells b)) (opponent c) (p :: played b)
  else b.

Definition undo (b : Position) : Position :=
  match played b with
  | [] => b
  | p :: rest =>
      mkPosition (bsize b) (<[Z.to_nat p := EMPTY]> (cells b)) (opponent (to_play b)) rest
  end.

Definition has_five (b : Position) (c : Color) : bool :=
  let NS := bsize b + 1 in
  existsb (fun i =>
    existsb (fun d =>
      forallb (fun k => Color_eqb (color_at b (Z.of_nat i + k * d)) c) [0; 1; 2; 3; 4])
      [1; NS; NS + 1; NS - 1])
    (seq 0 (length (cells b))).

Definition detect_five_in_a_row (b : Position) : Color :=
  if has_five b BLACK then BLACK
  else if has_five b WHITE then WHITE
  else EMPTY.

Definition terminal (b : Position) : bool :=
  (length (empty_points b) =? 0)%nat || negb (Color_eqb (detect_five_in_a_row b) EMPTY).

Definition evaluate (b : Position) : Z :=
  let winner := detect_five_in_a_row b in
  if Color_eqb winner EMPTY then 0
  else if Color_eqb winner (to_play b) then 5
  else -5.

Definition code (c : Color) : Z :=
  match c with EMPTY => 0 | BLACK => 1 | WHITE => 2 | BORDER => 3 end.

Definition fingerprint (b : Position) : Z :=
  fold_left (fun h c => 4 * h + code c) (cells b) (code (to_play b)).

#[export] Instance board_ops : BoardOps Position := {|
  size := bsize;
  current_player := to_play;
  get_empty_points := empty_points;
  play_move := play;
  undoMove := undo;
  endOfGame := terminal;
  staticallyEvaluateForToPlay := evaluate;
  hash := fingerprint
|}.

(** Modelled from the spec: the table class is not among the sources. Two
    associative stores, one for scores and one for moves; a store overwrites
    what was there, and a lookup finds an entry once either store has the
    key. *)
Record Table : Type := mkTable {
  scores : gmap Z Z;
  best : gmap Z Z
}.

Definition empty_table : Table := mkTable ∅ ∅.

Definition lookup_entry (t : Table) (h : Z) : option (option Z * Move) :=
  match scores t !! h, best t !! h with
  | None, None => None
  | s, m => Some (s, match m with Some p => Point p | None => PASS end)
  end.

#[export] Instance table_ops : TableOps Table := {|
  tt_lookup := lookup_entry;
  tt_storeScore := fun t h v => mkTable (<[h := v]> (scores t)) (best t);
  tt_storeMove := fun t h m => mkTable (scores t) (<[h := m]> (best t))
|}.

(** Modelled from the spec: [copy] gives an independent board with the same
    contents, [updateHash] takes over the table of the searched copy. *)
#[export] Instance sync_ops : SyncOps Position Table := {|
  copy := fun b => b;
  updateHash := fun live searched => mkGoBoard (pos live) (hashTable searched)
|}.

(** Put stones on the board, as a sequence of [play] commands would. *)
Definition place (stones : list (Z * Color)) (b : Position) : Position :=
  fold_left (fun b s => play b (fst s) (snd s)) stones b.

(** The point of (row, col). *)
Definition pt (n row col : Z) : Z := row * (n + 1) + col.

(** 5x5, Black A1 B1 C1 D1, White A3 B3 C3 D4, Black to move: E1 wins. *)
Definition open_four : Position :=
  place [(pt 5 1 1, BLACK); (pt 5 3 1, WHITE); (pt 5 1 2, BLACK); (pt 5 3 2, WHITE);
         (pt 5 1 3, BLACK); (pt 5 3 3, WHITE); (pt 5 1 4, BLACK); (pt 5 4 4, WHITE)]
    (empty_position 5).

(** The same after Black has played E1: White to move, Black has five. *)
Definition black_five : Position := play open_four (pt 5 1 5) BLACK.

(** An empty 2x2 board. *)
Definition tiny : Position := empty_position 2.

Definition INF : Z := 1000000.

Definition tiny_board : GoBoard Position Table := mkGoBoard tiny empty_table.

(** A table that records a loss, and one that records a win, for
    [open_four]. *)
Definition lost_table : Table := tt_storeScore empty_table (hash open_four) (-5).
Definition won_table : Table := tt_storeScore empty_table (hash open_four) 5.

(** A connection outside [genmove], with a fresh table and nothing written
    yet. *)
Definition connection (b : Position) (seconds : Z) : GtpConnection Position Table :=
  mkGtpConnection (mkGoBoard b empty_table) seconds false [].

End Gomoku.

(** ** What the ordering and the search are expected to do *)

Section Statements.

Context {B T : Type} {BO : BoardOps B} {TO : TableOps T}.

Variable INFINITY : Z.

(** The one-ply static evaluation of a move: apply it, evaluate the child
    for the side to move there. *)
Definition probe (state : B) (m : Z) : Z :=
  staticallyEvaluateForToPlay (play_move state m (current_player state)).

(** The empty points in board order, each with its one-ply evaluation. *)
Definition annotated (state : B) : list (Z * Z) :=
  map (fun m => (m, probe state m)) (get_empty_points state).

Definition has_heuristic (v : Z) (t : Z * Z) : bool := snd t =? v.

Definition descending (l : list (Z * Z)) : Prop :=
  StronglySorted (fun x y => snd y <= snd x) l.

(** The ordering as the specification words it: every legal move, by
    descending evaluation, equal evaluations in board order. *)
Definition ordered_stably (state : B) : Prop :=
  Permutation (fst (orderMoves state)) (annotated state)
  /\ descending (fst (orderMoves state))
  /\ forall v, List.filter (has_heuristic v) (fst (orderMoves state))
               = List.filter (has_heuristic v) (annotated state).

(** The ordering as the insertion loop produces it: equal evaluations in
    reverse board order. *)
Definition ordered_ties_reversed (state : B) : Prop :=
  Permutation (fst (orderMoves state)) (annotated state)
  /\ descending (fst (orderMoves state))
  /\ forall v, List.filter (has_heuristic v) (fst (orderMoves state))
               = rev (List.filter (has_heuristic v) (annotated state)).

(** Insertion in front of the first entry that is not greater. *)
Fixpoint insert_desc (t : Z * Z) (l : list (Z * Z)) : list (Z * Z) :=
  match l with
  | [] => [t]
  | x :: r => if snd x >? snd t then x :: insert_desc t r else t :: x :: r
  end.

(** The ordered list built from [acc] by inserting the moves of [points] one
    after the other, each with the evaluation [score] gives it. *)
Definition insert_all (score : Z -> Z) (points : list Z) (acc : list (Z * Z))
  : list (Z * Z) :=
  fold_left (fun acc m => insert_desc (m, score m) acc) points acc.

(** A proven win or a proven loss. *)
Definition decisive (v : Z) : bool := (v =? 5) || (v =? -5).

(** The driver as the specification words it: the searcher is called with
    the full window for the depth limits 1, 2, ... in turn, each call
    starting from the board and table the one before left. [invocation k] is
    the value and the board after the call with limit [k]; before the first
    call the driver holds the value 1. *)
Fixpoint invocation (fuel : nat) (board : GoBoard B T) (k : nat)
  : option (Z * GoBoard B T) :=
  match k with
  | O => Some (1, board)
  | S k' =>
      match invocation fuel board k' with
      | Some (_, board') => search_root INFINITY fuel board' (Z.of_nat k)
      | None => None
      end
  end.

(** The table cutoff as the specification words it: a recorded proven win
    or proven loss is returned at once, nothing else happens. *)
Definition cutoff_on_proven (fuel : nat) (state : B) (alpha beta : Z) (table : T)
  (depth depthMove depthLimit : Z) : Prop :=
  forall v mv,
    tt_lookup table (hash state) = Some (Some v, mv) ->
    v = 5 \/ v = -5 ->
    alphabeta_tt fuel state alpha beta table depth depthMove depthLimit
    = Some (v, (state, table)).

(** The terminal root as the specification words it: the driver hands back
    the terminal evaluation and the searcher is not called, so board and
    table are as they were. *)
Definition driver_skips_terminal_root (fuel : nat) (board : GoBoard B T) : Prop :=
  endOfGame (pos board) = true ->
  iterativeDeepening INFINITY fuel board
  = Some (staticallyEvaluateForToPlay (pos board), board).

End Statements.

Section CommandStatements.

Context {B T : Type} {BO : BoardOps B} {TO : TableOps T} {SO : SyncOps B T}.

Variable MAXSIZE : Z.
Variable INFINITY : Z.




(** What [respond] writes for a text. *)
Definition written (response : string) : string :=
  String.append "= " (String.append response (String.append newline newline)).

(** The budget of 0 as the specification words it: the answer is
    "unknown". *)
Definition zero_budget_unknown (fuel : nat) (self : GtpConnection B T) : Prop :=
  time self = 0 ->
  forall deadline self' ret,
    solve_cmd MAXSIZE INFINITY fuel deadline self = Some (self', ret) ->
    stdout self' = (stdout self ++ [written "unknown"])%list.

End CommandStatements.


(** ** The rest of the module: colours, the plain searches, the commands *)

(** What can be raised besides the built-in exceptions of [exn]: the
    KeyError of [color_to_int] and the SystemExit of [quit]. *)
Inductive raised : Type :=
| KeyError (msg : string)
| SystemExit
| Builtin (e : exn).

(** A computation that returns or raises one of these. *)
Inductive outcome (A : Type) : Type :=
| Returns (a : A)
| Raises (e : raised).
Arguments Returns {A} a.
Arguments Raises {A} e.

Definition lift {A : Type} (r : result A) : outcome A :=
  match r with
  | Ok a => Returns a
  | Raise e => Raises (Builtin e)
  end.

(** [d[key]] on a dict written as the list of its items. *)
Fixpoint dict_get {V : Type} (d : list (string * V)) (key : string) : option V :=
  match d with
  | [] => None
  | (k, v) :: d' => if String.eqb k key then Some v else dict_get d' key
  end.

(** [color_to_int]: the dict of the colour codes; any failure of the lookup
    is raised again as a KeyError with the module's own message. *)
Definition color_to_int (c : string) : outcome Color :=
  let color_to_int := [("b", BLACK); ("w", WHITE); ("e", EMPTY); ("BORDER", BORDER)] in
  match dict_get color_to_int c with
  | Some code => Returns code
  | None =>
      Raises (KeyError (String.append quote (String.append c
                          (String.append quote " wrong color"))))
  end.

(** *** The searches without a table *)

Section PlainSearch.

Context {B : Type} {BO : BoardOps B}.

(** [print(move, moveDepth)]: one line on standard output. *)
Definition print_move (out : list string) (move moveDepth : Z) : list string :=
  out ++ [String.append (py_str move)
            (String.append " " (String.append (py_str moveDepth) newline))].

(** The [for] loop of [alphabeta] over the empty points; [search] is the
    recursive call. A call returns the pair (value, move); the board and
    what was printed are handed on. *)
Fixpoint alphabeta_for
  (search : B -> Z -> Z -> Z -> Z -> list string -> option (Z * Z * (B * list string)))
  (points : list Z) (state : B) (alpha beta depth moveDepth move : Z)
  (out : list string) : option (Z * Z * (B * list string)) :=
  match points with
  | [] => Some (alpha, move, (state, out))
  | m :: points' =>
      let state := play_move state m (current_player state) in
      match search state (- beta) (- alpha) (depth + 1) moveDepth out with
      | None => None
      | Some (v, _, (state, out)) =>
          let value := - v in
          let '(moveDepth, move, out) :=
            if value >? alpha then
              if moveDepth >? depth
              then (depth, m, print_move out m depth)
              else (moveDepth, move, out)
            else (moveDepth, move, out) in
          let alpha := if value >? alpha then value else alpha in
          let state := undoMove state in
          if value >=? beta then Some (beta, move, (state, out))
          else alphabeta_for search points' state alpha beta depth moveDepth move out
      end
  end.

(** [alphabeta]. The recursion ends with the game; [fuel] bounds the
    nesting of calls, and [None] means the bound was too small. *)
Fixpoint alphabeta (fuel : nat) (state : B) (alpha beta depth moveDepth : Z)
  (out : list string) : option (Z * Z * (B * list string)) :=
  match fuel with
  | O => None
  | S fuel' =>
      let move := -1 in
      if endOfGame state
      then Some (staticallyEvaluateForToPlay state, -1, (state, out))
      else alphabeta_for (alphabeta fuel') (get_empty_points state) state
             alpha beta depth moveDepth move out
  end.

(** Python's truth value of a number: [not x] holds when [x] is 0. The
    booleans True and False are the numbers 1 and 0. *)
Definition truthy (x : Z) : bool := negb (x =? 0).

(** The [for] loop of [negamaxBoolean]. *)
Fixpoint negamaxBoolean_for
  (search : B -> Z -> Z -> list string -> option (Z * Z * (B * list string)))
  (points : list Z) (state : B) (depth moveDepth move : Z)
  (out : list string) : option (Z * Z * (B * list string)) :=
  match points with
  | [] => Some (0, move, (state, out))
  | m :: points' =>
      let state := play_move state m (current_player state) in
      match search state (depth + 1) moveDepth out with
      | None => None
      | Some (v, _, (state, out)) =>
          let success := negb (truthy v) in
          let state := undoMove state in
          if success then
            if moveDepth >? depth
            then Some (1, m, (state, print_move out m depth))
            else Some (1, move, (state, out))
          else negamaxBoolean_for search points' state depth moveDepth move out
      end
  end.

(** [negamaxBoolean]: the first component of the pair is the static
    evaluation at the end of the game, True (1) or False (0) elsewhere. *)
Fixpoint negamaxBoolean (fuel : nat) (state : B) (depth moveDepth : Z)
  (out : list string) : option (Z * Z * (B * list string)) :=
  match fuel with
  | O => None
  | S fuel' =>
      let move := -1 in
      if endOfGame state
      then Some (staticallyEvaluateForToPlay state, move, (state, out))
      else negamaxBoolean_for (negamaxBoolean fuel') (get_empty_points state) state
             depth moveDepth move out
  end.

End PlainSearch.

(** The attribute [drawWinner] of a board, read and written. *)
Class DrawOps (B : Type) : Type := {
  drawWinner : B -> Color;
  set_drawWinner : B -> Color -> B
}.

Section SolveForColor.

Context {B : Type} {BO : BoardOps B} {DO : DrawOps B}.

Variable INFINITY : Z.

(** [solveForColor] *)
Definition solveForColor (fuel : nat) (state : B) (color : Color) (out : list string)
  : option (Z * Z * (B * list string)) :=
  let saveOldDrawWinner := drawWinner state in
  let state := set_drawWinner state (opponent color) in
  let toPlayColor := current_player state in
  match negamaxBoolean fuel state 0 INFINITY out with
  | None => None
  | Some (winForToPlay, move, (state, out)) =>
      if truthy winForToPlay && Color_eqb toPlayColor color
      then Some (1, move, (state, out))
      else if truthy winForToPlay && negb (Color_eqb toPlayColor color)
      then Some (-1, move, (state, out))
      else
        let state := set_drawWinner state saveOldDrawWinner in
        match negamaxBoolean fuel state 0 INFINITY out with
        | None => None
        | Some (drawForToPlay, move, (state, out)) =>
            if truthy drawForToPlay then Some (0, move, (state, out))
            else Some (-1, move, (state, out))
        end
  end.

End SolveForColor.


(** *** The commands around the solver *)

(** What the commands call on a board besides the operations of
    [BoardOps]: [detect_five_in_a_row], [is_legal], and [play_move] with
    [PASS] for a move. *)
Class GameOps (B : Type) : Type := {
  detect_five_in_a_row : B -> Color;
  is_legal : B -> Move -> Color -> bool;
  play_pass : B -> Color -> B
}.

(** [str.strip(chars)] *)
Definition in_chars (chars : string) (c : ascii) : bool :=
  existsb (Ascii.eqb c) (list_ascii_of_string chars).

Fixpoint lstrip_chars (chars s : string) : string :=
  match s with
  | EmptyString => EmptyString
  | String c r => if in_chars chars c then lstrip_chars chars r else s
  end.

Fixpoint rstrip_chars (chars s : string) : string :=
  match s with
  | EmptyString => EmptyString
  | String c r =>
      match rstrip_chars chars r with
      | EmptyString => if in_chars chars c then EmptyString else String c EmptyString
      | r' => String c r'
      end
  end.

Definition strip_chars (chars s : string) : string :=
  rstrip_chars chars (lstrip_chars chars s).

(** Whether every character of a text has a property. *)
Fixpoint string_forall (p : ascii -> bool) (s : string) : bool :=
  match s with
  | EmptyString => true
  | String c r => p c && string_forall p r
  end.

(** [re.sub("^\d+", "", s)]: the digits at the head are dropped. *)
Fixpoint drop_digits (s : string) : string :=
  match s with
  | EmptyString => EmptyString
  | String c r => if is_digit c then drop_digits r else s
  end.

(** [s.split()]: the words between runs of white space; [word] is the
    word being read. *)
Fixpoint split_from (word s : string) : list string :=
  match s with
  | EmptyString =>
      match word with
      | EmptyString => []
      | _ => [word]
      end
  | String c r =>
      if is_space c then
        match word with
        | EmptyString => split_from EmptyString r
        | _ => word :: split_from EmptyString r
        end
      else split_from (String.append word (String c EmptyString)) r
  end.

Definition split (s : string) : list string := split_from EmptyString s.

(** The dict [argmap] of [__init__]: the number of arguments a command
    requires, and the message when it gets another number. *)
Definition argmap : list (string * (Z * string)) :=
  [("boardsize", (1, "Usage: boardsize INT"));
   ("komi", (1, "Usage: komi FLOAT"));
   ("known_command", (1, "Usage: known_command CMD_NAME"));
   ("genmove", (1, "Usage: genmove {w,b}"));
   ("play", (2, "Usage: play {b,w} MOVE"));
   ("legal_moves", (1, "Usage: legal_moves {w,b}"))].

Section Commands.

Context {B T : Type} {BO : BoardOps B} {TO : TableOps T} {SO : SyncOps B T}
  {GO : GameOps B}.

Variable MAXSIZE : Z.
Variable INFINITY : Z.

(** [error]: writes ["? {}\n\n".format(error_msg)]. *)
Definition error (self : GtpConnection B T) (error_msg : string) : GtpConnection B T :=
  mkGtpConnection (board self) (time self) (genMoveRunning self)
    (stdout self ++ [String.append "? " (String.append error_msg
                                           (String.append newline newline))]).

(** [has_arg_error] *)
Definition has_arg_error (self : GtpConnection B T) (cmd : string) (argnum : Z)
  : GtpConnection B T * bool :=
  match dict_get argmap cmd with
  | Some (required, usage) =>
      if negb (required =? argnum) then (error self usage, true) else (self, false)
  | None => (self, false)
  end.

(** [time_limit_cmd]: [args[0]] may be missing and [int] may refuse it. *)
Definition time_limit_cmd (args : list string) (self : GtpConnection B T)
  : GtpConnection B T * outcome unit :=
  match args with
  | [] => (self, Raises (Builtin IndexError))
  | a :: _ =>
      match py_int a with
      | Raise e => (self, Raises (Builtin e))
      | Ok seconds =>
          (respond (mkGtpConnection (board self) seconds (genMoveRunning self) (stdout self)) "",
           Returns tt)
      end
  end.

Definition set_genMoveRunning (self : GtpConnection B T) (running : bool)
  : GtpConnection B T :=
  mkGtpConnection (board self) (time self) running (stdout self).

(** [state.play_move(move, color)] for a move that is a point or [PASS].
    (A pair never gets here: [point_to_coord] has raised on it.) *)
Definition play_move_any (state : B) (move : Move) (color : Color) : B :=
  match move with
  | Point p => play_move state p color
  | _ => play_pass state color
  end.

(** [self.board.play_move(move, color)] *)
Definition play_on (self : GtpConnection B T) (move : Move) (color : Color)
  : GtpConnection B T :=
  set_board self (mkGoBoard (play_move_any (pos (board self)) move color) (hashTable (board self))).

Definition is_PASS (move : Move) : bool :=
  match move with
  | PASS => true
  | _ => false
  end.

(** The text of a move on the board of the connection:
    [format_point(point_to_coord(move, self.board.size))]. *)
Definition move_text (self : GtpConnection B T) (move : Move) : result string :=
  let! coord := point_to_coord move (size (pos (board self))) in
  format_point MAXSIZE coord.

(** [genmove_cmd]. The move of the engine, [go_engine.get_move(board,
    color)], is drawn at random by the player the module is run with; it
    is an input here, [engine_move]. [deadline] is the one of [solve_cmd]. *)
Definition genmove_cmd (fuel : nat) (deadline : bool) (engine_move : Move)
  (args : list string) (self : GtpConnection B T)
  : option (GtpConnection B T * outcome unit) :=
  let result := detect_five_in_a_row (pos (board self)) in
  if Color_eqb result (opponent (current_player (pos (board self))))
  then Some (respond self "resign", Returns tt)
  else if (length (get_empty_points (pos (board self))) =? 0)%nat
  then Some (respond self "pass", Returns tt)
  else
    match args with
    | [] => Some (self, Raises (Builtin IndexError))
    | a :: _ =>
        let board_color := lower a in
        match color_to_int board_color with
        | Raises e => Some (self, Raises e)
        | Returns color =>
            let self := set_genMoveRunning self true in
            match solve_cmd MAXSIZE INFINITY fuel deadline self with
            | None => None
            | Some (self, winMove) =>
                let self := set_genMoveRunning self false in
                if negb (is_PASS winMove)
                   && Color_eqb (current_player (pos (board self))) color
                then
                  match move_text self winMove with
                  | Raise e => Some (self, Raises (Builtin e))
                  | Ok winMoveAsString =>
                      let self := play_on self winMove color in
                      Some (respond self winMoveAsString, Returns tt)
                  end
                else
                  let move := engine_move in
                  match move_text self move with
                  | Raise e => Some (self, Raises (Builtin e))
                  | Ok move_as_string =>
                      if is_legal (pos (board self)) move color
                      then
                        let self := play_on self move color in
                        Some (respond self move_as_string, Returns tt)
                      else
                        Some (respond self (String.append "Illegal move: " move_as_string),
                              Returns tt)
                  end
            end
        end
    end.

(** The connection together with its debug switch; [stderr] collects what
    [debug_msg] wrote. *)
Record GtpSession : Type := mkGtpSession {
  gtp_connection : GtpConnection B T;
  _debug_mode : bool;
  stderr : list string
}.

(** [debug_msg] *)
Definition debug_msg (session : GtpSession) (msg : string) : GtpSession :=
  if _debug_mode session
  then mkGtpSession (gtp_connection session) (_debug_mode session) (stderr session ++ [msg])
  else session.

Definition with_connection (session : GtpSession) (self : GtpConnection B T) : GtpSession :=
  mkGtpSession self (_debug_mode session) (stderr session).

(** A command of the dict [commands]: from the arguments and the session to
    the session it leaves and the way it ends ([None]: the bound of a
    search was too small). *)
Definition Command : Type :=
  list string -> GtpSession -> option (GtpSession * outcome unit).

(** The dict [commands] of [__init__]. *)
Variable commands : list (string * Command).

(** The texts Python makes of an exception: [str(e)] and
    [traceback.format_exc()]. *)
Variable exception_str : raised -> string.
Variable format_exc : raised -> string.

(** [except Exception] lets SystemExit pass. *)
Definition is_Exception (e : raised) : bool :=
  match e with
  | SystemExit => false
  | _ => true
  end.

(** [get_cmd] from the words of the command on. *)
Definition run_command (elements : list string) (session : GtpSession)
  : option (GtpSession * outcome unit) :=
  match elements with
  | [] => Some (session, Returns tt)
  | command_name :: args =>
      let '(self, arg_error) :=
        has_arg_error (gtp_connection session) command_name (Z.of_nat (length args)) in
      let session := with_connection session self in
      if arg_error then Some (session, Returns tt)
      else
        match dict_get commands command_name with
        | Some command =>
            match command args session with
            | None => None
            | Some (session, Returns _) => Some (session, Returns tt)
            | Some (session, Raises e) =>
                if is_Exception e then
                  let session :=
                    debug_msg session
                      (String.append "Error executing command "
                         (String.append (exception_str e) newline)) in
                  let session :=
                    debug_msg session
                      (String.append "Stack Trace:"
                         (String.append newline
                            (String.append (format_exc e) newline))) in
                  Some (session, Raises e)
                else Some (session, Raises e)
            end
        | None =>
            let session :=
              debug_msg session
                (String.append "Unknown command: " (String.append command_name newline)) in
            Some (with_connection session (error (gtp_connection session) "Unknown command"),
                  Returns tt)
        end
  end.

Definition tab : ascii := "009"%char.
Definition carriage_return : ascii := "013"%char.

(** [get_cmd], for a command of ASCII characters. *)
Definition get_cmd (command : string) (session : GtpSession)
  : option (GtpSession * outcome unit) :=
  if (String.length
        (strip_chars (String " " (String carriage_return (String tab EmptyString))) command)
      =? 0)%nat
  then Some (session, Returns tt)
  else
    match command with
    | EmptyString => Some (session, Raises (Builtin IndexError))
    | String first _ =>
        if Ascii.eqb first "#" then Some (session, Returns tt)
        else
          let command :=
            if is_digit first then lstrip (drop_digits command) else command in
          run_command (split command) session
    end.

End Commands.


(** ** The Gomoku board as the commands see it *)

Module GomokuGame.

Import Gomoku.

(** Modelled from the spec: the rest of the board class. A move is legal on
    an empty point; a pass changes the side to move and nothing else. *)
#[export] Instance game_ops : GameOps Position :=
  Build_GameOps Position
    Gomoku.detect_five_in_a_row
    (fun b move _ =>
       match move with
       | Point p => Color_eqb (color_at b p) EMPTY
       | _ => false
       end)
    (fun b c => mkPosition (bsize b) (cells b) (opponent c) (played b)).

(** A Gomoku board with the attribute [drawWinner]. *)
Record DrawBoard : Type := mkDrawBoard {
  base : Position;
  draw_winner : Color
}.

Definition on_base (f : Position -> Position) (b : DrawBoard) : DrawBoard :=
  mkDrawBoard (f (base b)) (draw_winner b).

#[export] Instance draw_board_ops : BoardOps DrawBoard := {|
  size := fun b => bsize (base b);
  current_player := fun b => to_play (base b);
  get_empty_points := fun b => empty_points (base b);
  play_move := fun b m c => on_base (fun p => play p m c) b;
  undoMove := on_base undo;
  endOfGame := fun b => terminal (base b);
  staticallyEvaluateForToPlay := fun b => evaluate (base b);
  hash := fun b => fingerprint (base b)
|}.

#[export] Instance draw_ops : DrawOps DrawBoard := {|
  drawWinner := draw_winner;
  set_drawWinner := fun b c => mkDrawBoard (base b) c
|}.

(** The boards of a game: Black or White is to move. *)
Definition legit (b : Position) : Prop := to_play b = BLACK \/ to_play b = WHITE.

(** The 2x2 board after A1 B1 A2: one point left. *)
Definition last_point : Position :=
  place [(pt 2 1 1, BLACK); (pt 2 1 2, WHITE); (pt 2 2 1, BLACK)] tiny.

(** The 2x2 board, full. *)
Definition full : Position := play last_point (pt 2 2 2) WHITE.

(** A dict of commands with [timelimit] alone. *)
Definition only_timelimit : list (string * @Command Position Table) :=
  [("timelimit",
    fun args session =>
      let '(self, o) := time_limit_cmd args (gtp_connection session) in
      Some (with_connection session self, o))].

Definition no_text (e : raised) : string := EmptyString.

Definition fresh_session (b : Position) : @GtpSession Position Table :=
  mkGtpSession (connection b 1) false [].

End GomokuGame.

(** ** Facts about the coordinates *)

Section CoordinateFacts.

Variable MAXSIZE : Z.

Lemma point_to_coord_pass (boardsize : Z) : point_to_coord PASS boardsize = Ok PASS.
Proof. reflexivity. Qed.

Lemma format_point_pass : MAXSIZE <= 25 -> format_point MAXSIZE PASS = Ok "PASS".
Proof.
  intros Hmax. unfold format_point.
  destruct (Z.leb_spec MAXSIZE 25) as [_ | Hgt]; [reflexivity | lia].
Qed.

Lemma move_to_coord_PASS (board_size : Z) :
  2 <= board_size <= MAXSIZE -> move_to_coord MAXSIZE "PASS" board_size = Ok PASS.
Proof.
  intros [Hlo Hhi]. unfold move_to_coord.
  destruct (Z.leb_spec 2 board_size); [| lia].
  destruct (Z.leb_spec board_size MAXSIZE); [| lia].
  reflexivity.
Qed.

(** The letter of a column, read back by [parse_point]. *)
Lemma column_letter_back (k : nat) :
  (k < 25)%nat ->
  exists c, str_index column_letters (Z.of_nat k + 1 - 1) = Ok c
    /\ forall digits, str_index (String (lower_char c) digits) 0 = Ok (lower_char c)
    /\ (let o := nat_of_ascii (lower_char c) in
        negb ((97 <=? o)%nat && (o <=? 122)%nat) || Ascii.eqb (lower_char c) "i" = false
        /\ (if (o <? 105)%nat then Z.of_nat o - 97 + 1 else Z.of_nat o - 97)
           = Z.of_nat k + 1).
Proof.
  intros Hk.
  do 25 (destruct k as [| k];
         [eexists; split; [reflexivity | intros digits; split; [reflexivity | split; reflexivity]] |]).
  lia.
Qed.

(** A row number below 25 printed and parsed again. *)
Lemma row_back (k : nat) :
  (k < 25)%nat ->
  let row := Z.of_nat k + 1 in
  lower (py_str row) = py_str row
  /\ py_int (py_str row) = Ok row
  /\ forall c, String.eqb (String c (py_str row)) "pass" = false.
Proof.
  intros Hk.
  do 25 (destruct k as [| k];
         [split; [reflexivity | split; [reflexivity | intros c; cbn; destruct (Ascii.eqb c "p"); reflexivity]] |]).
  lia.
Qed.

(** [move_to_coord] reads a column letter followed by a row number as that
    row and column, on every board that has them. *)
Lemma move_to_coord_reads (row col board_size : Z) :
  2 <= board_size <= MAXSIZE ->
  1 <= row <= board_size -> 1 <= col <= board_size ->
  row <= 25 -> col <= 25 ->
  exists c, str_index column_letters (col - 1) = Ok c
    /\ move_to_coord MAXSIZE (String c (py_str row)) board_size = Ok (Coord row col).
Proof.
  intros Hsize Hrow Hcol Hr Hc.
  destruct (column_letter_back (Z.to_nat (col - 1))) as (c & Hidx & Hback); [lia |].
  destruct (row_back (Z.to_nat (row - 1))) as (Hlow & Hint & Hpass); [lia |].
  replace (Z.of_nat (Z.to_nat (col - 1)) + 1) with col in * by lia.
  replace (Z.of_nat (Z.to_nat (row - 1)) + 1) with row in * by lia.
  exists c. split; [exact Hidx |].
  unfold move_to_coord.
  destruct (Z.leb_spec 2 board_size); [| lia].
  destruct (Z.leb_spec board_size MAXSIZE); [| lia].
  cbn [negb andb lower]. rewrite Hlow.
  destruct (Hback (py_str row)) as (Hfirst & Hletter & Hcolumn).
  assert (Hne : String.eqb (String (lower_char c) (py_str row)) "pass" = false)
    by apply Hpass.
  rewrite Hne. unfold parse_point. rewrite Hfirst. cbn [bind].
  cbv zeta in Hletter, Hcolumn. rewrite Hletter.
  cbn [str_tail]. rewrite Hint. cbn [bind].
  destruct (Z.ltb_spec row 1); [lia |].
  rewrite Hcolumn.
  destruct (Z.leb_spec col board_size); [| lia].
  destruct (Z.leb_spec row board_size); [| lia].
  reflexivity.
Qed.

(** Below [MAXSIZE] the two functions agree: what [format_point] writes,
    [move_to_coord] reads back. *)
Lemma round_trip_below_MAXSIZE (row col board_size : Z) :
  MAXSIZE <= 25 -> 2 <= board_size <= MAXSIZE ->
  1 <= row <= board_size -> 1 <= col <= board_size ->
  row < MAXSIZE -> col < MAXSIZE ->
  exists s, format_point MAXSIZE (Coord row col) = Ok s
    /\ move_to_coord MAXSIZE s board_size = Ok (Coord row col).
Proof.
  intros Hmax Hsize Hrow Hcol Hr Hc.
  destruct (move_to_coord_reads row col board_size) as (c & Hidx & Hread); try lia.
  exists (String c (py_str row)). split; [| exact Hread].
  unfold format_point.
  destruct (Z.leb_spec MAXSIZE 25); [| lia].
  destruct (Z.leb_spec 0 row); [| lia]. destruct (Z.ltb_spec row MAXSIZE); [| lia].
  destruct (Z.leb_spec 0 col); [| lia]. destruct (Z.ltb_spec col MAXSIZE); [| lia].
  cbn [negb andb orb]. rewrite Hidx. reflexivity.
Qed.

(** C10 (where it fails): on a board of the largest size the last row and
    the last column are coordinates [move_to_coord] returns, and
    [format_point] raises on them instead of writing them, so the round
    trip breaks there. *)
Theorem format_point_rejects_MAXSIZE (row col : Z) :
  2 <= MAXSIZE <= 25 ->
  1 <= row <= MAXSIZE -> 1 <= col <= MAXSIZE ->
  row = MAXSIZE \/ col = MAXSIZE ->
  (exists s, move_to_coord MAXSIZE s MAXSIZE = Ok (Coord row col))
  /\ exists e, format_point MAXSIZE (Coord row col) = Raise e.
Proof.
  intros Hmax Hrow Hcol Hedge. split.
  - destruct (move_to_coord_reads row col MAXSIZE) as (c & _ & Hread); try lia.
    eexists. exact Hread.
  - unfold format_point.
    destruct (Z.leb_spec MAXSIZE 25); cbn [negb]; [| eexists; reflexivity].
    destruct (Z.ltb_spec row MAXSIZE), (Z.ltb_spec col MAXSIZE); try lia;
      rewrite ?andb_false_r, ?orb_true_r; cbn [negb orb];
      try (eexists; reflexivity).
Qed.

End CoordinateFacts.

(** ** Facts about the move ordering *)

Local Open Scope list_scope.

Section OrderingFacts.

Context {B T : Type} {BO : BoardOps B} {TO : TableOps T}.

Lemma scan_index_shift (l : list (Z * Z)) (h : Z) (k : nat) :
  scan_index l h (S k) = S (scan_index l h k).
Proof.
  revert k. induction l as [| x r IH]; intros k; simpl; [reflexivity |].
  destruct (snd x >? h); [apply IH | reflexivity].
Qed.

(** The index loop followed by [insert] or [append] is an insertion in
    front of the first entry that is not greater. *)
Lemma place_move_insert (l : list (Z * Z)) (m h : Z) :
  place_move l m h = insert_desc (m, h) l.
Proof.
  unfold place_move. destruct l as [| x0 r0]; [reflexivity |].
  change (0 <? length (x0 :: r0))%nat with true. cbv iota.
  generalize (x0 :: r0). clear x0 r0. intros l.
  induction l as [| x r IH]; [reflexivity |].
  simpl scan_index. simpl insert_desc.
  destruct (snd x >? h) eqn:Hgt.
  - rewrite scan_index_shift. rewrite <- IH.
    change (length (x :: r) <=? S (scan_index r h 0))%nat
      with (length r <=? scan_index r h 0)%nat.
    destruct (length r <=? scan_index r h 0)%nat; reflexivity.
  - reflexivity.
Qed.

Lemma insert_desc_perm (t : Z * Z) (l : list (Z * Z)) :
  Permutation (insert_desc t l) (t :: l).
Proof.
  induction l as [| x r IH]; simpl; [reflexivity |].
  destruct (snd x >? snd t); [| reflexivity].
  rewrite IH. apply perm_swap.
Qed.

Lemma insert_desc_descending (t : Z * Z) (l : list (Z * Z)) :
  descending l -> descending (insert_desc t l).
Proof.
  unfold descending. induction l as [| x r IH]; intros Hs; simpl.
  - repeat constructor.
  - apply StronglySorted_inv in Hs. destruct Hs as [Hr Hx].
    destruct (Z.gtb_spec (snd x) (snd t)) as [Hgt | Hle].
    + constructor; [apply IH, Hr |].
      rewrite insert_desc_perm. constructor; [lia | exact Hx].
    + constructor.
      * constructor; assumption.
      * constructor; [exact Hle |].
        eapply Forall_impl; [exact Hx |]. simpl. intros a Ha. lia.
Qed.

Lemma insert_desc_filter (v : Z) (t : Z * Z) (l : list (Z * Z)) :
  List.filter (has_heuristic v) (insert_desc t l)
  = List.filter (has_heuristic v) [t] ++ List.filter (has_heuristic v) l.
Proof.
  induction l as [| x r IH]; [simpl; rewrite app_nil_r; reflexivity |].
  simpl insert_desc.
  destruct (Z.gtb_spec (snd x) (snd t)) as [Hgt | Hle].
  - simpl. rewrite IH. simpl. unfold has_heuristic.
    destruct (Z.eqb_spec (snd x) v), (Z.eqb_spec (snd t) v); try reflexivity. lia.
  - simpl. destruct (has_heuristic v t); reflexivity.
Qed.

Lemma insert_all_cons (score : Z -> Z) (m : Z) (points : list Z) (acc : list (Z * Z)) :
  insert_all score (m :: points) acc
  = insert_all score points (insert_desc (m, score m) acc).
Proof. reflexivity. Qed.

Lemma insert_all_perm (score : Z -> Z) (points : list Z) (acc : list (Z * Z)) :
  Permutation (insert_all score points acc)
    (acc ++ map (fun m => (m, score m)) points).
Proof.
  revert acc. induction points as [| m r IH]; intros acc.
  - simpl. rewrite app_nil_r. reflexivity.
  - rewrite insert_all_cons, IH, insert_desc_perm. simpl.
    apply Permutation_middle.
Qed.

Lemma insert_all_descending (score : Z -> Z) (points : list Z) (acc : list (Z * Z)) :
  descending acc -> descending (insert_all score points acc).
Proof.
  revert acc. induction points as [| m r IH]; intros acc Hacc; [exact Hacc |].
  rewrite insert_all_cons. apply IH, insert_desc_descending, Hacc.
Qed.

Lemma insert_all_filter (v : Z) (score : Z -> Z) (points : list Z) (acc : list (Z * Z)) :
  List.filter (has_heuristic v) (insert_all score points acc)
  = rev (List.filter (has_heuristic v) (map (fun m => (m, score m)) points))
    ++ List.filter (has_heuristic v) acc.
Proof.
  revert acc. induction points as [| m r IH]; intros acc; [reflexivity |].
  rewrite insert_all_cons, IH, insert_desc_filter.
  simpl. destruct (has_heuristic v (m, score m)); simpl.
  - rewrite <- app_assoc. reflexivity.
  - reflexivity.
Qed.

(** Every probe is undone: on the empty points, [undoMove] takes back what
    [play_move] did. *)
Hypothesis undo_play :
  forall (b : B) (m : Z),
    In m (get_empty_points b) -> undoMove (play_move b m (current_player b)) = b.

Lemma orderMoves_loop_insert (points : list Z) (state : B) (acc : list (Z * Z)) :
  (forall m, In m points -> In m (get_empty_points state)) ->
  orderMoves_loop points state acc = (insert_all (probe state) points acc, state).
Proof.
  revert acc. induction points as [| m r IH]; intros acc Hin; [reflexivity |].
  simpl orderMoves_loop. rewrite undo_play by (apply Hin; left; reflexivity).
  rewrite place_move_insert. rewrite IH by (intros m' Hm'; apply Hin; right; exact Hm').
  reflexivity.
Qed.

Lemma orderMoves_insert (state : B) :
  orderMoves state = (insert_all (probe state) (get_empty_points state) [], state).
Proof. unfold orderMoves. apply orderMoves_loop_insert. auto. Qed.

Lemma orderMoves_restores (state : B) : snd (orderMoves state) = state.
Proof. rewrite orderMoves_insert. reflexivity. Qed.

Lemma orderMoves_moves (state : B) (t : Z * Z) :
  In t (fst (orderMoves state)) -> In (fst t) (get_empty_points state).
Proof.
  rewrite orderMoves_insert. simpl. intros Hin.
  apply (Permutation_in _ (insert_all_perm _ _ _)) in Hin. simpl in Hin.
  apply in_map_iff in Hin. destruct Hin as (m & <- & Hm). exact Hm.
Qed.

(** C5 (amended): the orderer returns every empty point with its one-ply
    evaluation, by descending evaluation; among equal evaluations the point
    enumerated later comes first. *)
Theorem orderMoves_descending_ties_reversed (state : B) :
  ordered_ties_reversed state.
Proof.
  unfold ordered_ties_reversed, annotated. rewrite orderMoves_insert. simpl.
  split; [| split].
  - apply (insert_all_perm (probe state) (get_empty_points state) []).
  - apply insert_all_descending. constructor.
  - intros v. rewrite insert_all_filter. simpl. apply app_nil_r.
Qed.

End OrderingFacts.

(** ** Facts about the searcher and the driver *)

Section SearchFacts.

Context {B T : Type} {BO : BoardOps B} {TO : TableOps T}.

Variable INFINITY : Z.

(** *** The search returns *)

Lemma alphabeta_loop_total
  (search : B -> Z -> Z -> T -> Z -> Z -> Z -> option (Z * (B * T)))
  (depth depthMove depthLimit : Z) :
  (forall state alpha beta table,
      exists r, search state alpha beta table (depth + 1) depthMove depthLimit = Some r) ->
  forall orderedMoves state alpha beta table,
    exists r, alphabeta_loop search orderedMoves state alpha beta table
                depth depthMove depthLimit = Some r.
Proof.
  intros Hsearch orderedMoves.
  induction orderedMoves as [| m rest IH]; intros state alpha beta table.
  - simpl. eexists. reflexivity.
  - simpl.
    destruct (Hsearch (play_move state (fst m) (current_player state))
                (- beta) (- alpha) table) as [[v [state1 table1]] Hcall].
    rewrite Hcall.
    destruct (- v >=? beta); [eexists; reflexivity | apply IH].
Qed.

(** With the depth at or below the limit, a bound above their distance is
    enough for the searcher to return. *)
Lemma alphabeta_tt_total (fuel : nat) :
  forall state alpha beta table depth depthMove depthLimit,
    depth <= depthLimit -> depthLimit - depth < Z.of_nat fuel ->
    exists r, alphabeta_tt fuel state alpha beta table depth depthMove depthLimit = Some r.
Proof.
  induction fuel as [| fuel IH]; intros state alpha beta table depth depthMove depthLimit Hle Hfuel.
  - lia.
  - simpl.
    destruct (recorded_win _); [eexists; reflexivity |].
    destruct (endOfGame state); [eexists; reflexivity |].
    destruct (Z.eqb_spec depth depthLimit) as [Heq | Hne]; [eexists; reflexivity |].
    cbn [orb]. destruct (orderMoves state) as [orderedMoves state1].
    apply alphabeta_loop_total.
    intros state2 alpha2 beta2 table2. apply IH; lia.
Qed.

Lemma search_root_total (fuel : nat) (board : GoBoard B T) (d : Z) :
  0 <= d < Z.of_nat fuel ->
  exists r, search_root INFINITY fuel board d = Some r.
Proof.
  intros Hd. unfold search_root.
  destruct (alphabeta_tt_total fuel (pos board) (- INFINITY) INFINITY (hashTable board)
              0 INFINITY d) as [[v [state table]] Hcall]; [lia | lia |].
  rewrite Hcall. eexists. reflexivity.
Qed.

(** *** The node expansion *)

(** C4: in the expansion of a node, the child of a candidate move is
    searched with the window (-beta, -alpha) one level deeper and its value
    is negated; when the negated value reaches beta, the loop ends there
    whatever siblings remain: the move is undone, beta is stored for the
    node and returned. *)
Theorem beta_cutoff_stores_beta
  (fuel : nat) (m : Z * Z) (siblings : list (Z * Z)) (state : B) (alpha beta : Z)
  (table : T) (depth depthMove depthLimit : Z) (v : Z) (child : B) (table1 : T) :
  alphabeta_tt fuel (play_move state (fst m) (current_player state))
    (- beta) (- alpha) table (depth + 1) depthMove depthLimit
  = Some (v, (child, table1)) ->
  beta <= - v ->
  exists table2,
    alphabeta_loop (alphabeta_tt fuel) (m :: siblings) state alpha beta table
      depth depthMove depthLimit
    = Some (beta, (undoMove child, tt_storeScore table2 (hash (undoMove child)) beta))
    /\ (table2 = table1 \/ table2 = tt_storeMove table1 (hash (undoMove child)) (fst m)).
Proof.
  intros Hcall Hcut. simpl. rewrite Hcall.
  destruct (Z.geb_spec (- v) beta) as [_ | Hlt]; [| lia].
  destruct (- v >? alpha); [destruct ((- v =? 0) || (- v =? 5)) |];
    eexists; (split; [reflexivity |]); auto.
Qed.

(** *** The table cutoff *)

(** C2 (amended): when the table records the value 5 for the state, the
    searcher returns 5 at once, whatever the window, the depth and the
    depth limit, and leaves board and table as they are. Any other recorded
    value, -5 included, is not used: at a terminal state or at the depth
    limit the static evaluation is computed, stored and returned, and
    anywhere else the node is expanded, move by move in the order of
    [orderMoves]. *)
Theorem recorded_win_cutoff
  (fuel : nat) (state : B) (alpha beta : Z) (table : T)
  (depth depthMove depthLimit : Z) (v : Z) (mv : Move) :
  tt_lookup table (hash state) = Some (Some v, mv) ->
  (v = 5 ->
   alphabeta_tt (S fuel) state alpha beta table depth depthMove depthLimit
   = Some (5, (state, table)))
  /\ (v <> 5 -> endOfGame state || (depth =? depthLimit) = true ->
      alphabeta_tt (S fuel) state alpha beta table depth depthMove depthLimit
      = Some (staticallyEvaluateForToPlay state,
              (state, tt_storeScore table (hash state) (staticallyEvaluateForToPlay state))))
  /\ (v <> 5 -> endOfGame state || (depth =? depthLimit) = false ->
      alphabeta_tt (S fuel) state alpha beta table depth depthMove depthLimit
      = alphabeta_loop (alphabeta_tt fuel) (fst (orderMoves state)) (snd (orderMoves state))
          alpha beta table depth depthMove depthLimit).
Proof.
  intros Hlookup. split; [| split].
  - intros ->. simpl. rewrite Hlookup. reflexivity.
  - intros Hv Hleaf. simpl. rewrite Hlookup. simpl.
    destruct (Z.eqb_spec v 5) as [Heq | _]; [contradiction |].
    rewrite Hleaf. reflexivity.
  - intros Hv Hinner. cbn [alphabeta_tt]. rewrite Hlookup. cbn [recorded_win fst].
    destruct (Z.eqb_spec v 5) as [Heq | _]; [contradiction |].
    rewrite Hinner. destruct (orderMoves state) as [orderedMoves state']. reflexivity.
Qed.

(** *** The driver *)

Lemma invocation_step (fuel : nat) (board : GoBoard B T) (k : nat) (r : Z) (b : GoBoard B T) :
  invocation INFINITY fuel board k = Some (r, b) ->
  invocation INFINITY fuel board (S k) = search_root INFINITY fuel b (Z.of_nat (S k)).
Proof. intros Hk. simpl invocation. rewrite Hk. reflexivity. Qed.

(** The loop of the driver from the depth limit [a + 1] on, [c] limits to
    go. *)
Lemma deepening_loop_invocations (fuel : nat) (board : GoBoard B T) (c : nat) :
  forall (a : nat) (r : Z) (b : GoBoard B T),
    (a + c < fuel)%nat ->
    invocation INFINITY fuel board a = Some (r, b) ->
    (forall j r' b', (1 <= j <= a)%nat ->
        invocation INFINITY fuel board j = Some (r', b') -> decisive r' = false) ->
    exists k r' b',
      (a <= k <= a + c)%nat
      /\ deepening_loop INFINITY fuel (map Z.of_nat (seq (S a) c)) b r = Some (r', b')
      /\ invocation INFINITY fuel board k = Some (r', b')
      /\ (forall j r'' b'', (1 <= j < k)%nat ->
            invocation INFINITY fuel board j = Some (r'', b'') -> decisive r'' = false)
      /\ (k = (a + c)%nat \/ ((1 <= k)%nat /\ decisive r' = true)).
Proof.
  induction c as [| c IH]; intros a r b Hfuel Ha Hbefore.
  - exists a, r, b. simpl.
    split; [lia |]. split; [reflexivity |]. split; [exact Ha |].
    split; [intros j r'' b'' Hj; apply Hbefore; lia | left; lia].
  - simpl seq. simpl map. simpl deepening_loop.
    destruct (search_root_total fuel b (Z.of_nat (S a))) as [[r1 b1] Hcall]; [lia |].
    change (Z.pos (Pos.of_succ_nat a)) with (Z.of_nat (S a)).
    rewrite Hcall.
    assert (Hnext : invocation INFINITY fuel board (S a) = Some (r1, b1)).
    { rewrite (invocation_step _ _ _ _ _ Ha). exact Hcall. }
    fold (decisive r1). destruct (decisive r1) eqn:Hdec.
    + exists (S a), r1, b1.
      split; [lia |]. split; [reflexivity |]. split; [exact Hnext |].
      split; [intros j r'' b'' Hj; apply Hbefore; lia | right; split; [lia | exact Hdec]].
    + destruct (IH (S a) r1 b1) as (k & r' & b' & Hk & Hloop & Hinv & Hnone & Hlast).
      * lia.
      * exact Hnext.
      * intros j r'' b'' Hj Hinvj.
        destruct (Nat.eq_dec j (S a)) as [-> | Hne].
        -- rewrite Hnext in Hinvj. injection Hinvj as <- <-. exact Hdec.
        -- apply (Hbefore j r'' b''); [lia | exact Hinvj].
      * exists k, r', b'.
        split; [lia |]. split; [exact Hloop |]. split; [exact Hinv |].
        split; [exact Hnone |].
        destruct Hlast as [-> | Hlast]; [left; lia | right; exact Hlast].
Qed.


End SearchFacts.

(** ** The board after a search *)

Section Restoration.

Context {B T : Type} {BO : BoardOps B} {TO : TableOps T}.

(** On the empty points, [undoMove] takes back what [play_move] did. *)
Hypothesis undo_play :
  forall (b : B) (m : Z),
    In m (get_empty_points b) -> undoMove (play_move b m (current_player b)) = b.

Lemma alphabeta_loop_restores
  (search : B -> Z -> Z -> T -> Z -> Z -> Z -> option (Z * (B * T)))
  (depth depthMove depthLimit : Z) :
  (forall state alpha beta table v state' table',
      search state alpha beta table (depth + 1) depthMove depthLimit
      = Some (v, (state', table')) -> state' = state) ->
  forall orderedMoves state alpha beta table v state' table',
    (forall m, In m orderedMoves -> In (fst m) (get_empty_points state)) ->
    alphabeta_loop search orderedMoves state alpha beta table depth depthMove depthLimit
    = Some (v, (state', table')) ->
    state' = state.
Proof.
  intros Hsearch orderedMoves.
  induction orderedMoves as [| m rest IH];
    intros state alpha beta table v state' table' Hmoves Hrun.
  - simpl in Hrun. injection Hrun as _ <- _. reflexivity.
  - simpl in Hrun.
    destruct (search (play_move state (fst m) (current_player state))
                (- beta) (- alpha) table (depth + 1) depthMove depthLimit)
      as [[v1 [state1 table1]] |] eqn:Hcall; [| discriminate].
    apply Hsearch in Hcall. subst state1.
    rewrite undo_play in Hrun by (apply Hmoves; left; reflexivity).
    destruct (- v1 >=? beta).
    + injection Hrun as _ <- _. reflexivity.
    + apply IH in Hrun; [exact Hrun |].
      intros m' Hm'. apply Hmoves. right. exact Hm'.
Qed.

(** C6: when a call of the searcher returns, the board is the board it was
    called with, and so is its fingerprint; the probes of the move orderer
    leave the board as it was, too. *)
Theorem alphabeta_tt_restores_board (fuel : nat) :
  forall state alpha beta table depth depthMove depthLimit v state' table',
    alphabeta_tt fuel state alpha beta table depth depthMove depthLimit
    = Some (v, (state', table')) ->
    state' = state /\ hash state' = hash state /\ snd (orderMoves state) = state.
Proof.
  assert (Hboard : forall fuel state alpha beta table depth depthMove depthLimit v state' table',
             alphabeta_tt fuel state alpha beta table depth depthMove depthLimit
             = Some (v, (state', table')) -> state' = state).
  { clear fuel. induction fuel as [| fuel IH];
      intros state alpha beta table depth depthMove depthLimit v state' table' Hrun.
    - discriminate.
    - simpl in Hrun.
      destruct (recorded_win _); [injection Hrun as _ <- _; reflexivity |].
      destruct (endOfGame state || (depth =? depthLimit));
        [injection Hrun as _ <- _; reflexivity |].
      pose proof (orderMoves_restores undo_play state) as Hprobe.
      pose proof (orderMoves_moves undo_play state) as Hmoves.
      destruct (orderMoves state) as [orderedMoves state1].
      simpl in Hprobe, Hmoves. subst state1.
      eapply alphabeta_loop_restores; [| exact Hmoves | exact Hrun].
      intros state2 alpha2 beta2 table2 v2 state2' table2'. apply IH. }
  intros state alpha beta table depth depthMove depthLimit v state' table' Hrun.
  apply Hboard in Hrun. subst state'.
  split; [reflexivity | split; [reflexivity | apply (orderMoves_restores undo_play)]].
Qed.

End Restoration.

(** ** The driver on a terminal root *)

Section TerminalRoot.

Context {B T : Type} {BO : BoardOps B} {TO : TableOps T}.

Variable INFINITY : Z.

(** A stored score is what the next lookup of the same key finds. *)
Hypothesis lookup_stored :
  forall (table : T) (h v : Z),
    exists mv, tt_lookup (tt_storeScore table h v) h = Some (Some v, mv).

Lemma search_root_terminal (fuel : nat) (board : GoBoard B T) (d : Z) :
  endOfGame (pos board) = true ->
  recorded_win (tt_lookup (hashTable board) (hash (pos board))) = false ->
  search_root INFINITY (S fuel) board d
  = Some (staticallyEvaluateForToPlay (pos board),
          mkGoBoard (pos board)
            (tt_storeScore (hashTable board) (hash (pos board))
               (staticallyEvaluateForToPlay (pos board)))).
Proof.
  intros Hend Hnone. unfold search_root. simpl. rewrite Hnone, Hend. reflexivity.
Qed.

Lemma deepening_loop_terminal (fuel : nat) (state : B) (limits : list Z) :
  endOfGame state = true ->
  decisive (staticallyEvaluateForToPlay state) = false ->
  forall table,
    (exists mv, tt_lookup table (hash state)
                = Some (Some (staticallyEvaluateForToPlay state), mv)) ->
    exists table',
      deepening_loop INFINITY (S fuel) limits (mkGoBoard state table)
        (staticallyEvaluateForToPlay state)
      = Some (staticallyEvaluateForToPlay state, mkGoBoard state table')
      /\ exists mv, tt_lookup table' (hash state)
                    = Some (Some (staticallyEvaluateForToPlay state), mv).
Proof.
  intros Hend Hdec. induction limits as [| d rest IH]; intros table Hrec.
  - exists table. split; [reflexivity | exact Hrec].
  - simpl deepening_loop. rewrite search_root_terminal; simpl; [| exact Hend |].
    + fold (decisive (staticallyEvaluateForToPlay state)). rewrite Hdec.
      apply IH. apply lookup_stored.
    + destruct Hrec as [mv ->]. simpl.
      unfold decisive in Hdec. apply orb_false_elim in Hdec. apply Hdec.
Qed.

(** C8 (amended): on a terminal root that still has an empty point, and
    for which the table records no win, the driver does call the searcher;
    every call returns at the terminal test without applying a move, so the
    board is as it was, and the driver returns the terminal static
    evaluation, which the table then holds for the root. *)
Theorem terminal_root_static_evaluation (fuel : nat) (board : GoBoard B T) :
  endOfGame (pos board) = true ->
  get_empty_points (pos board) <> [] ->
  recorded_win (tt_lookup (hashTable board) (hash (pos board))) = false ->
  exists table',
    iterativeDeepening INFINITY (S fuel) board
    = Some (staticallyEvaluateForToPlay (pos board), mkGoBoard (pos board) table')
    /\ exists mv, tt_lookup table' (hash (pos board))
                  = Some (Some (staticallyEvaluateForToPlay (pos board)), mv).
Proof.
  intros Hend Hpoints Hnone. unfold iterativeDeepening, depth_limits.
  destruct (get_empty_points (pos board)) as [| p points]; [contradiction |].
  simpl length. simpl seq. simpl map. simpl deepening_loop.
  rewrite search_root_terminal by assumption.
  fold (decisive (staticallyEvaluateForToPlay (pos board))).
  destruct (decisive (staticallyEvaluateForToPlay (pos board))) eqn:Hdec.
  - eexists. split; [reflexivity | apply lookup_stored].
  - apply deepening_loop_terminal; [exact Hend | exact Hdec | apply lookup_stored].
Qed.

End TerminalRoot.

(** ** Facts about the solve command *)

Section CommandFacts.

Context {B T : Type} {BO : BoardOps B} {TO : TableOps T} {SO : SyncOps B T}.

Variable MAXSIZE : Z.
Variable INFINITY : Z.

Lemma iterativeDeepening_total (fuel : nat) (b : GoBoard B T) :
  (length (get_empty_points (pos b)) < fuel)%nat ->
  exists r b', iterativeDeepening INFINITY fuel b = Some (r, b').
Proof.
  intros Hfuel. unfold iterativeDeepening, depth_limits.
  destruct (deepening_loop_invocations INFINITY fuel b
              (length (get_empty_points (pos b))) 0%nat 1 b)
    as (k & r & b' & _ & Hloop & _); [exact Hfuel | reflexivity | intros; lia |].
  exists r, b'. exact Hloop.
Qed.


Lemma recorded_move_report (self : GtpConnection B T) (c : Color) (r : Z) (move : string) :
  recorded_move (solve_report self c r move) = recorded_move self.
Proof.
  unfold solve_report.
  destruct (negb (genMoveRunning self)); [| reflexivity].
  repeat match goal with |- context [if ?c then _ else _] => destruct c end; reflexivity.
Qed.

Lemma solve_move_recorded (self : GtpConnection B T) (b : GoBoard B T) (move : string) :
  solve_move MAXSIZE self b = Ok move -> exists m, recorded_move self = Ok m.
Proof.
  unfold solve_move. destruct (recorded_move self) as [m | e]; [eauto | discriminate].
Qed.

Lemma alarm_armed_in_range (seconds : Z) :
  alarm_armed seconds = true -> alarm_in_range seconds = true.
Proof. unfold alarm_armed. intros Harmed. apply andb_prop in Harmed. tauto. Qed.


Lemma solve_try_fired (fuel : nat) (deadline : bool) (self : GtpConnection B T) :
  alarm_armed (time self) && deadline = true ->
  solve_try MAXSIZE INFINITY fuel deadline self = Some (self, handler).
Proof.
  intros Hfired. unfold solve_try. rewrite Hfired.
  apply andb_prop in Hfired. destruct Hfired as [Harmed _].
  rewrite (alarm_armed_in_range _ Harmed). reflexivity.
Qed.

(** The bare [except]: whatever is raised in the [try] block, the answer is
    "unknown" (outside [genmove]) and no move is returned. *)
Lemma solve_cmd_except (fuel : nat) (deadline : bool) (self self1 : GtpConnection B T)
  (e : exn) :
  solve_try MAXSIZE INFINITY fuel deadline self = Some (self1, Raise e) ->
  solve_cmd MAXSIZE INFINITY fuel deadline self = Some (solve_except self1).
Proof. intros Htry. unfold solve_cmd. rewrite Htry. reflexivity. Qed.




(** C7 (amended): outside [genmove], a [solve] whose armed alarm goes off
    before the search is over answers "unknown" and returns no move, and so
    does one whose [try] block ends with any exception at all: nothing has
    been written before the exception, so "unknown" is all the answer. A
    budget of 0 arms no alarm: the deadline plays no part and the search is
    answered as it ends. *)
Theorem solve_cmd_unknown_on_failure (fuel : nat) (self : GtpConnection B T) :
  genMoveRunning self = false ->
  (alarm_armed (time self) = true ->
   solve_try MAXSIZE INFINITY fuel true self = Some (self, handler)
   /\ solve_cmd MAXSIZE INFINITY fuel true self = Some (respond self "unknown", PASS))
  /\ (forall deadline self1 e,
        solve_try MAXSIZE INFINITY fuel deadline self = Some (self1, Raise e) ->
        solve_cmd MAXSIZE INFINITY fuel deadline self
        = Some (respond self1 "unknown", PASS)
        /\ stdout self1 = stdout self)
  /\ (time self = 0 ->
      forall deadline,
        solve_cmd MAXSIZE INFINITY fuel deadline self
        = solve_cmd MAXSIZE INFINITY fuel false self).
Proof.
  intros Hgen.
  assert (Hgen1 : forall deadline self1 e,
             solve_try MAXSIZE INFINITY fuel deadline self = Some (self1, Raise e) ->
             genMoveRunning self1 = false).
  { intros deadline self1 e. unfold solve_try.
    destruct (negb (alarm_in_range (time self)));
      [intros Heq; injection Heq as <- _; exact Hgen |].
    destruct (alarm_armed (time self) && deadline).
    - intros Heq. injection Heq as <- _. exact Hgen.
    - destruct (iterativeDeepening INFINITY fuel (copy (board self))) as [[r b] |];
        [| discriminate].
      destruct (solve_move MAXSIZE _ b) as [move | e'].
      + intros Heq. injection Heq as <- _. unfold solve_report. simpl. rewrite Hgen.
        cbn [negb].
        repeat match goal with |- context [if ?c then _ else _] => destruct c end;
          exact Hgen.
      + intros Heq. injection Heq as <- _. exact Hgen. }
  assert (Hexcept : forall deadline self1 e,
             solve_try MAXSIZE INFINITY fuel deadline self = Some (self1, Raise e) ->
             solve_cmd MAXSIZE INFINITY fuel deadline self
             = Some (respond self1 "unknown", PASS)).
  { intros deadline self1 e Htry.
    rewrite (solve_cmd_except _ _ _ _ _ Htry). unfold solve_except.
    rewrite (Hgen1 _ _ _ Htry). reflexivity. }
  assert (Hquiet : forall deadline self1 e,
             solve_try MAXSIZE INFINITY fuel deadline self = Some (self1, Raise e) ->
             stdout self1 = stdout self).
  { intros deadline self1 e. unfold solve_try.
    destruct (negb (alarm_in_range (time self)));
      [intros Heq; injection Heq as <- _; reflexivity |].
    destruct (alarm_armed (time self) && deadline).
    - intros Heq. injection Heq as <- _. reflexivity.
    - destruct (iterativeDeepening INFINITY fuel (copy (board self))) as [[r b] |];
        [| discriminate].
      destruct (solve_move MAXSIZE _ b) as [move | e'] eqn:Hmove.
      + rewrite recorded_move_report.
        destruct (solve_move_recorded _ _ _ Hmove) as [m ->].
        intros Heq. discriminate Heq.
      + intros Heq. injection Heq as <- _. reflexivity. }
  split; [| split].
  - intros Harmed.
    assert (Htry : solve_try MAXSIZE INFINITY fuel true self = Some (self, handler))
      by (apply solve_try_fired; rewrite Harmed; reflexivity).
    split; [exact Htry | exact (Hexcept true self _ Htry)].
  - intros deadline self1 e Htry.
    split; [exact (Hexcept _ _ _ Htry) | exact (Hquiet _ _ _ Htry)].
  - intros Hzero deadline. unfold solve_cmd, solve_try, alarm_armed.
    rewrite Hzero. reflexivity.
Qed.

(** The table is all [updateHash] takes from the searched copy. *)
Hypothesis updateHash_keeps_position :
  forall live searched : GoBoard B T, pos (updateHash live searched) = pos live.

Lemma solve_report_board (self : GtpConnection B T) (c : Color) (r : Z) (move : string) :
  board (solve_report self c r move) = board self.
Proof.
  unfold solve_report.
  destruct (negb (genMoveRunning self)); [| reflexivity].
  repeat match goal with |- context [if ?c then _ else _] => destruct c end; reflexivity.
Qed.

Lemma solve_except_board (self self' : GtpConnection B T) (ret : Move) :
  solve_except self = (self', ret) -> board self' = board self.
Proof.
  unfold solve_except. intros Heq. injection Heq as <- _.
  destruct (negb (genMoveRunning self)); reflexivity.
Qed.

Lemma solve_cmd_total (fuel : nat) (deadline : bool) (self : GtpConnection B T) :
  (length (get_empty_points (pos (copy (board self)))) < fuel)%nat ->
  exists self' ret, solve_cmd MAXSIZE INFINITY fuel deadline self = Some (self', ret).
Proof.
  intros Hfuel. unfold solve_cmd, solve_try.
  destruct (negb (alarm_in_range (time self)));
    [destruct (solve_except self) as [self' ret]; eauto |].
  destruct (alarm_armed (time self) && deadline).
  - cbv beta iota delta [handler]. destruct (solve_except self) as [self' ret]. eauto.
  - destruct (iterativeDeepening_total fuel (copy (board self)) Hfuel) as (r & b & ->).
    destruct (solve_move MAXSIZE _ b) as [move | e].
    + destruct (recorded_move _) as [m | e']; [eauto |].
      destruct (solve_except _) as [self' ret]. eauto.
    + destruct (solve_except _) as [self' ret]. eauto.
Qed.

Lemma solve_cmd_live_board
  (fuel : nat) (deadline : bool) (self self' : GtpConnection B T) (ret : Move) :
  solve_cmd MAXSIZE INFINITY fuel deadline self = Some (self', ret) ->
  board self' = board self
  \/ exists r b,
      iterativeDeepening INFINITY fuel (copy (board self)) = Some (r, b)
      /\ board self' = updateHash (board self) b.
Proof.
  intros Hrun. unfold solve_cmd, solve_try in Hrun.
  destruct (negb (alarm_in_range (time self)));
    [left; apply (solve_except_board self self' ret); congruence |].
  destruct (alarm_armed (time self) && deadline).
  - cbv beta iota delta [handler] in Hrun.
    left. apply (solve_except_board self self' ret). congruence.
  - destruct (iterativeDeepening INFINITY fuel (copy (board self)))
      as [[r b] |] eqn:Hsearch; [| discriminate].
    right. exists r, b. split; [reflexivity |].
    destruct (solve_move MAXSIZE _ b) as [move | e].
    + rewrite recorded_move_report in Hrun.
      destruct (recorded_move _) as [m | e'].
      * injection Hrun as <- _. rewrite solve_report_board. reflexivity.
      * match type of Hrun with
        | Some (solve_except ?x) = _ =>
            rewrite (solve_except_board x self' ret) by congruence
        end.
        rewrite solve_report_board. reflexivity.
    + match type of Hrun with
      | Some (solve_except ?x) = _ =>
          rewrite (solve_except_board x self' ret) by congruence
      end.
      reflexivity.
Qed.

(** C9: a [solve] searches the copy. The board of the connection is either
    left alone or updated by [updateHash] from the searched copy, and its
    position (stones and side to move) is the one before the command. *)
Theorem solve_cmd_keeps_live_position
  (fuel : nat) (deadline : bool) (self : GtpConnection B T) :
  (length (get_empty_points (pos (copy (board self)))) < fuel)%nat ->
  exists self' ret,
    solve_cmd MAXSIZE INFINITY fuel deadline self = Some (self', ret)
    /\ (board self' = board self
        \/ exists r b,
            iterativeDeepening INFINITY fuel (copy (board self)) = Some (r, b)
            /\ board self' = updateHash (board self) b)
    /\ pos (board self') = pos (board self)
    /\ current_player (pos (board self')) = current_player (pos (board self)).
Proof.
  intros Hfuel.
  destruct (solve_cmd_total fuel deadline self Hfuel) as (self' & ret & Hrun).
  exists self', ret. split; [exact Hrun |].
  pose proof (solve_cmd_live_board fuel deadline self self' ret Hrun) as Hboard.
  assert (Hpos : pos (board self') = pos (board self)).
  { destruct Hboard as [-> | (r & b & _ & ->)];
      [reflexivity | apply updateHash_keeps_position]. }
  split; [exact Hboard | split; [exact Hpos | rewrite Hpos; reflexivity]].
Qed.

End CommandFacts.

(** ** The Gomoku board and the table meet the assumptions *)

Section GomokuFacts.

Import Gomoku.

Lemma Color_eqb_eq (a b : Color) : Color_eqb a b = true -> a = b.
Proof. destruct a, b; simpl; intros Heq; try reflexivity; discriminate. Qed.

Lemma opponent_involutive (c : Color) : opponent (opponent c) = c.
Proof. destruct c; reflexivity. Qed.

Lemma gomoku_undo_play (b : Position) (m : Z) :
  In m (get_empty_points b) -> undoMove (play_move b m (current_player b)) = b.
Proof.
  destruct b as [n cs tp hist]. simpl. unfold empty_points. simpl. intros Hin.
  apply List.in_map_iff in Hin. destruct Hin as (i & <- & Hi).
  apply List.filter_In in Hi. destruct Hi as [Hseq Hcol].
  apply List.in_seq in Hseq. apply Color_eqb_eq in Hcol.
  unfold play, color_at. simpl.
  destruct (Z.ltb_spec (Z.of_nat i) 0) as [Hneg | _]; [lia |].
  rewrite Nat2Z.id, Hcol. simpl. unfold undo. simpl.
  rewrite opponent_involutive. f_equal.
  rewrite Nat2Z.id, list_insert_insert_eq. apply list_insert_id.
  rewrite nth_lookup in Hcol.
  destruct (cs !! i) as [c |] eqn:Hc; simpl in Hcol; [congruence | discriminate].
Qed.

Lemma gomoku_lookup_stored (table : Table) (h v : Z) :
  exists mv, tt_lookup (tt_storeScore table h v) h = Some (Some v, mv).
Proof.
  simpl. unfold lookup_entry. simpl. rewrite lookup_insert_eq.
  eexists. reflexivity.
Qed.

Lemma gomoku_updateHash_keeps_position (live searched : GoBoard Position Table) :
  pos (updateHash live searched) = pos live.
Proof. reflexivity. Qed.

End GomokuFacts.

(** ** Concrete runs *)

Section Runs.

Import Gomoku.

Example format_point_A1 : format_point 25 (Coord 1 1) = Ok "A1".
Proof. reflexivity. Qed.

Example format_point_J12 : format_point 25 (Coord 12 9) = Ok "J12".
Proof. reflexivity. Qed.

Example move_to_coord_J12 : move_to_coord 25 "J12" 19 = Ok (Coord 12 9).
Proof. reflexivity. Qed.

Example move_to_coord_i3 : exists e, move_to_coord 25 "i3" 19 = Raise e.
Proof. eexists. reflexivity. Qed.

Example move_to_coord_mixed_case_pass : move_to_coord 25 "PaSs" 19 = Ok PASS.
Proof. reflexivity. Qed.

Example format_point_zero : format_point 25 (Coord 0 0) = Ok "Z0".
Proof. reflexivity. Qed.

Example move_to_coord_top_row : move_to_coord 25 "A25" 25 = Ok (Coord 25 1).
Proof. reflexivity. Qed.

Example orderMoves_open_four_last :
  List.last (fst (orderMoves open_four)) (0, 0) = (pt 5 1 5, -5).
Proof. vm_compute. reflexivity. Qed.

Example solve_open_four :
  option_map (fun r => stdout (fst r)) (solve_cmd 25 INF 20 false (connection open_four 1))
  = Some [written "b E1"].
Proof. vm_compute. reflexivity. Qed.

Lemma format_point_rejects_MAXSIZE_witness :
  (2 <= 25 <= 25 /\ 1 <= 25 <= 25 /\ 1 <= 1 <= 25 /\ (25 = 25 \/ 1 = 25))
  /\ (exists s, move_to_coord 25 s 25 = Ok (Coord 25 1))
  /\ exists e, format_point 25 (Coord 25 1) = Raise e.
Proof.
  split; [lia |].
  apply (format_point_rejects_MAXSIZE 25 25 1); lia.
Defined.


Lemma recorded_win_cutoff_witness :
  tt_lookup won_table (hash open_four) = Some (Some 5, PASS)
  /\ alphabeta_tt 1 open_four (- INF) INF won_table 0 INF 3
     = Some (5, (open_four, won_table)).
Proof.
  assert (Hrec : tt_lookup won_table (hash open_four) = Some (Some 5, PASS))
    by (vm_compute; reflexivity).
  split; [exact Hrec |].
  apply (proj1 (recorded_win_cutoff 0 open_four (- INF) INF won_table 0 INF 3 5 PASS Hrec)).
  reflexivity.
Defined.

(** C2 as worded does not hold: with a loss recorded for [open_four], the
    searcher does not hand back -5; it searches the node and returns 5. *)
Lemma recorded_loss_is_searched :
  ~ cutoff_on_proven 2 open_four (- INF) INF lost_table 0 INF 1.
Proof.
  intros Hclaim.
  specialize (Hclaim (-5) PASS).
  assert (Hrec : tt_lookup lost_table (hash open_four) = Some (Some (-5), PASS))
    by (vm_compute; reflexivity).
  specialize (Hclaim Hrec (or_intror eq_refl)).
  apply (f_equal (option_map fst)) in Hclaim.
  vm_compute in Hclaim. discriminate Hclaim.
Qed.


Lemma beta_cutoff_stores_beta_witness :
  exists table2,
    alphabeta_tt 1 (play_move tiny 4 (current_player tiny)) (- 0) (- (-1)) empty_table
      (0 + 1) INF 1
    = Some (0, (play tiny 4 BLACK, tt_storeScore empty_table (hash (play tiny 4 BLACK)) 0))
    /\ 0 <= - 0
    /\ alphabeta_loop (alphabeta_tt 1) [(4, 0); (5, 0)] tiny (-1) 0 empty_table 0 INF 1
       = Some (0, (undoMove (play tiny 4 BLACK),
                   tt_storeScore table2 (hash (undoMove (play tiny 4 BLACK))) 0)).
Proof.
  assert (Hcall :
    alphabeta_tt 1 (play_move tiny (fst (4, 0)) (current_player tiny)) (- 0) (- (-1))
      empty_table (0 + 1) INF 1
    = Some (0, (play tiny 4 BLACK, tt_storeScore empty_table (hash (play tiny 4 BLACK)) 0)))
    by (vm_compute; reflexivity).
  destruct (beta_cutoff_stores_beta 1 (4, 0) [(5, 0)] tiny (-1) 0 empty_table 0 INF 1
              0 _ _ Hcall) as (table2 & Hrun & _); [lia |].
  exists table2. split; [exact Hcall | split; [lia | exact Hrun]].
Defined.

Lemma orderMoves_descending_ties_reversed_witness : ordered_ties_reversed tiny.
Proof. apply (orderMoves_descending_ties_reversed gomoku_undo_play tiny). Defined.

(** C5 as worded does not hold: the four points of the empty 2x2 board all
    evaluate to 0 and come out in reverse board order. *)
Lemma ties_are_not_stable : ~ ordered_stably tiny.
Proof.
  intros (_ & _ & Hties). specialize (Hties 0).
  vm_compute in Hties. discriminate Hties.
Qed.

Lemma alphabeta_tt_restores_board_witness :
  exists v state' table',
    alphabeta_tt 3 tiny (- INF) INF empty_table 0 INF 2 = Some (v, (state', table'))
    /\ state' = tiny /\ hash state' = hash tiny.
Proof.
  destruct (alphabeta_tt 3 tiny (- INF) INF empty_table 0 INF 2)
    as [[v [state' table']] |] eqn:Hrun;
    [| apply (f_equal returned) in Hrun;
       vm_compute in Hrun; discriminate Hrun].
  exists v, state', table'. split; [reflexivity |].
  destruct (alphabeta_tt_restores_board gomoku_undo_play 3 tiny (- INF) INF empty_table
              0 INF 2 v state' table' Hrun) as (Hstate & Hhash & _).
  split; [exact Hstate | exact Hhash].
Defined.

Lemma solve_cmd_unknown_on_failure_witness :
  genMoveRunning (connection open_four 1) = false
  /\ solve_cmd 25 INF 20 true (connection open_four 1)
     = Some (respond (connection open_four 1) "unknown", PASS).
Proof.
  split; [reflexivity |].
  apply (proj1 (solve_cmd_unknown_on_failure 25 INF 20 (connection open_four 1) eq_refl)).
  reflexivity.
Defined.

(** C7 as worded does not hold: with a budget of 0 no alarm is armed, the
    search of [open_four] runs to its end and the win is answered. *)
Lemma zero_budget_is_answered :
  ~ zero_budget_unknown 25 INF 20 (connection open_four 0).
Proof.
  intros Hclaim.
  assert (Hout : option_map (fun r => stdout (fst r))
                   (solve_cmd 25 INF 20 true (connection open_four 0))
                 = Some [written "b E1"]) by (vm_compute; reflexivity).
  destruct (solve_cmd 25 INF 20 true (connection open_four 0)) as [[self' ret] |] eqn:Hrun;
    [| discriminate Hout].
  cbn [option_map fst] in Hout. injection Hout as Hout.
  specialize (Hclaim eq_refl true self' ret Hrun).
  rewrite Hout in Hclaim. vm_compute in Hclaim. discriminate Hclaim.
Qed.

Lemma terminal_root_static_evaluation_witness :
  (endOfGame black_five = true /\ get_empty_points black_five <> [])
  /\ exists table',
       iterativeDeepening INF 1 (mkGoBoard black_five empty_table)
       = Some (-5, mkGoBoard black_five table').
Proof.
  assert (Hend : endOfGame (pos (mkGoBoard black_five empty_table)) = true)
    by (vm_compute; reflexivity).
  assert (Hpoints : get_empty_points (pos (mkGoBoard black_five empty_table)) <> [])
    by (vm_compute; discriminate).
  split; [split; [exact Hend | exact Hpoints] |].
  destruct (terminal_root_static_evaluation INF gomoku_lookup_stored 0
              (mkGoBoard black_five empty_table) Hend Hpoints)
    as (table' & Hrun & _); [vm_compute; reflexivity |].
  exists table'. exact Hrun.
Defined.

(** C8 as worded does not hold: on [black_five], a terminal root with empty
    points left, the driver calls the searcher, which writes the evaluation
    into the table. *)
Lemma terminal_root_is_searched :
  ~ driver_skips_terminal_root INF 17 (mkGoBoard black_five empty_table).
Proof.
  intros Hclaim.
  assert (Hend : endOfGame (pos (mkGoBoard black_five empty_table)) = true)
    by (vm_compute; reflexivity).
  specialize (Hclaim Hend).
  apply (f_equal (option_map (fun r => tt_lookup (hashTable (snd r)) (hash black_five))))
    in Hclaim.
  vm_compute in Hclaim. discriminate Hclaim.
Qed.

Lemma solve_cmd_keeps_live_position_witness :
  (length (get_empty_points (pos (copy (board (connection open_four 1))))) < 20)%nat
  /\ exists self' ret,
       solve_cmd 25 INF 20 false (connection open_four 1) = Some (self', ret)
       /\ pos (board self') = open_four.
Proof.
  assert (Hfuel : (length (get_empty_points (pos (copy (board (connection open_four 1)))))
                   < 20)%nat) by (vm_compute; lia).
  split; [exact Hfuel |].
  destruct (solve_cmd_keeps_live_position 25 INF gomoku_updateHash_keeps_position
              20 false (connection open_four 1) Hfuel)
    as (self' & ret & Hrun & _ & Hpos & _).
  exists self', ret. split; [exact Hrun | exact Hpos].
Defined.

End Runs.

(** ** More about the coordinates *)

Section CoordinateUse.

Variable MAXSIZE : Z.

Lemma point_to_coord_at (boardsize row col : Z) :
  0 <= col <= boardsize ->
  point_to_coord (Point (row * (boardsize + 1) + col)) boardsize = Ok (Coord row col).
Proof.
  intros Hcol. unfold point_to_coord.
  destruct (Z.eqb_spec (boardsize + 1) 0) as [Hzero | _]; [lia |].
  f_equal. f_equal.
  - rewrite Z.div_add_l by lia. rewrite Z.div_small by lia. lia.
  - rewrite Z.add_comm, Z.mod_add by lia. apply Z.mod_small. lia.
Qed.

(** X1: [point_to_coord] inverts the layout of the board array: the point
    [p] is sent to the one pair (row, col) with [p = row * (boardsize + 1)
    + col] and the column between 0 and [boardsize]. *)
Theorem point_to_coord_layout (p boardsize row col : Z) :
  0 <= boardsize ->
  point_to_coord (Point p) boardsize = Ok (Coord row col)
  <-> p = row * (boardsize + 1) + col /\ 0 <= col <= boardsize.
Proof.
  intros Hsize. split.
  - unfold point_to_coord.
    destruct (Z.eqb_spec (boardsize + 1) 0) as [Hzero | _]; [lia |].
    intros Heq. injection Heq as <- <-.
    pose proof (Z.div_mod p (boardsize + 1)) as Hdiv.
    pose proof (Z.mod_pos_bound p (boardsize + 1)) as Hmod. lia.
  - intros [-> Hcol]. apply point_to_coord_at. exact Hcol.
Qed.

Lemma lower_char_idempotent (c : ascii) : lower_char (lower_char c) = lower_char c.
Proof. destruct c as [[] [] [] [] [] [] [] []]; reflexivity. Qed.

Lemma lower_idempotent (s : string) : lower (lower s) = lower s.
Proof.
  induction s as [| c r IH]; [reflexivity |].
  simpl. rewrite lower_char_idempotent, IH. reflexivity.
Qed.

(** X4: [move_to_coord] does not tell upper case from lower case: the text
    and its lower-case form give the same coordinates or the same error. *)
Theorem move_to_coord_case_insensitive (point_str : string) (board_size : Z) :
  move_to_coord MAXSIZE (lower point_str) board_size
  = move_to_coord MAXSIZE point_str board_size.
Proof. unfold move_to_coord. rewrite lower_idempotent. reflexivity. Qed.

Lemma str_index_raises (s : string) (i : Z) (e : exn) :
  str_index s i = Raise e -> e = IndexError.
Proof.
  unfold str_index.
  destruct (_ || _); [intros [= <-]; reflexivity |].
  destruct (String.get _ s); [discriminate | intros [= <-]; reflexivity].
Qed.

Lemma py_int_raises (s : string) (e : exn) :
  py_int s = Raise e -> exists msg, e = ValueError msg.
Proof.
  unfold py_int.
  match goal with |- context [match ?v with Some _ => _ | None => _ end] => destruct v end;
    [discriminate | intros [= <-]; eauto].
Qed.

Lemma parse_point_raises (s : string) (e : exn) :
  parse_point s = Raise e -> e = IndexError \/ exists msg, e = ValueError msg.
Proof.
  unfold parse_point.
  destruct (str_index s 0) as [c | e0] eqn:Hidx; simpl.
  - destruct (_ || _); [intros [= <-]; right; eauto |].
    destruct (py_int (str_tail s)) as [row | e1] eqn:Hint; simpl.
    + destruct (row <? 1); [intros [= <-]; right; eauto | discriminate].
    + intros [= <-]. right. eapply py_int_raises, Hint.
  - intros [= <-]. left. eapply str_index_raises, Hidx.
Qed.

(** X3: whatever the text and the board size, [move_to_coord] fails with a
    ValueError and with nothing else. *)
Theorem move_to_coord_raises_ValueError (point_str : string) (board_size : Z) (e : exn) :
  move_to_coord MAXSIZE point_str board_size = Raise e ->
  exists msg, e = ValueError msg.
Proof.
  unfold move_to_coord.
  destruct (negb _); [intros [= <-]; eauto |].
  destruct (String.eqb _ "pass"); [discriminate |].
  destruct (parse_point (lower point_str)) as [[row col] | e0] eqn:Hparse.
  - destruct (negb _); [intros [= <-]; eauto | discriminate].
  - destruct (parse_point_raises _ _ Hparse) as [-> | [msg ->]];
      intros [= <-]; eauto.
Qed.

Lemma nat_of_ascii_inj (a b : ascii) : nat_of_ascii a = nat_of_ascii b -> a = b.
Proof.
  intros Heq. rewrite <- (ascii_nat_embedding a), <- (ascii_nat_embedding b), Heq.
  reflexivity.
Qed.

Lemma parse_point_range (s : string) (row col : Z) :
  parse_point s = Ok (row, col) -> 1 <= row /\ 1 <= col <= 25.
Proof.
  unfold parse_point.
  destruct (str_index s 0) as [c | e0]; cbn [bind]; [| discriminate].
  destruct (Nat.leb_spec 97 (nat_of_ascii c)) as [Hlo | Hlo];
    cbn [andb negb orb]; [| discriminate].
  destruct (Nat.leb_spec (nat_of_ascii c) 122) as [Hhi | Hhi];
    cbn [andb negb orb]; [| discriminate].
  destruct (Ascii.eqb_spec c "i") as [-> | Hi]; [discriminate |].
  assert (Hne : nat_of_ascii c <> 105%nat).
  { intros Heq. apply Hi. apply nat_of_ascii_inj. exact Heq. }
  destruct (py_int (str_tail s)) as [r | e1]; cbn [bind]; [| discriminate].
  destruct (Z.ltb_spec r 1) as [Hr | Hr]; [discriminate |].
  intros [= <- <-].
  destruct (Nat.ltb_spec (nat_of_ascii c) 105); lia.
Qed.

(** X2: what [move_to_coord] returns is [PASS], for the text "pass" in any
    case, or a pair (row, col) with both between 1 and the board size;
    and it returns only for a board size between 2 and [MAXSIZE]. *)
Theorem move_to_coord_in_range (point_str : string) (board_size : Z) (mv : Move) :
  move_to_coord MAXSIZE point_str board_size = Ok mv ->
  2 <= board_size <= MAXSIZE
  /\ ((mv = PASS /\ lower point_str = "pass")
      \/ exists row col,
          mv = Coord row col /\ lower point_str <> "pass"
          /\ 1 <= row <= board_size /\ 1 <= col <= board_size).
Proof.
  unfold move_to_coord.
  destruct (Z.leb_spec 2 board_size) as [Hlo | Hlo]; [| discriminate].
  destruct (Z.leb_spec board_size MAXSIZE) as [Hhi | Hhi]; [| discriminate].
  cbn [andb negb]. intros Hrun. split; [lia |]. revert Hrun.
  destruct (String.eqb_spec (lower point_str) "pass") as [Hpass | Hpass].
  - intros [= <-]. left. split; [reflexivity | exact Hpass].
  - destruct (parse_point (lower point_str)) as [[row col] | e0] eqn:Hparse.
    + apply parse_point_range in Hparse.
      destruct (Z.leb_spec col board_size) as [Hc | Hc];
        destruct (Z.leb_spec row board_size) as [Hr | Hr]; cbn [andb negb];
        try discriminate.
      intros [= <-]. right. exists row, col. repeat split; try assumption; lia.
    + destruct e0; discriminate.
Qed.

(** X5: there is no column I: a text that begins with "i" or "I" is
    refused as an invalid point on every board. *)
Theorem move_to_coord_rejects_I (c : ascii) (rest : string) (board_size : Z) :
  c = "i"%char \/ c = "I"%char ->
  2 <= board_size <= MAXSIZE ->
  move_to_coord MAXSIZE (String c rest) board_size
  = Raise (ValueError (String.append "invalid point: '"
                         (String.append (String "i" (lower rest)) "'"))).
Proof.
  intros Hc [Hlo Hhi]. unfold move_to_coord.
  destruct (Z.leb_spec 2 board_size); [| lia].
  destruct (Z.leb_spec board_size MAXSIZE); [| lia].
  cbn [andb negb lower].
  assert (Hlow : lower_char c = "i"%char) by (destruct Hc as [-> | ->]; reflexivity).
  rewrite Hlow. cbn [String.eqb Ascii.eqb Bool.eqb andb].
  unfold parse_point.
  assert (Hidx : str_index (String "i" (lower rest)) 0 = Ok "i"%char).
  { unfold str_index. cbn [String.length]. rewrite Nat2Z.inj_succ.
    destruct (Z.ltb_spec 0 0); [lia |].
    destruct (Z.leb_spec (Z.succ (Z.of_nat (String.length (lower rest)))) 0); [lia |].
    reflexivity. }
  rewrite Hidx. reflexivity.
Qed.

(** X6: distinct coordinates are written differently: on the rows and
    columns from 1 up to below [MAXSIZE], [format_point] is injective. *)
Theorem format_point_injective (row col row' col' : Z) (s : string) :
  2 <= MAXSIZE <= 25 ->
  1 <= row < MAXSIZE -> 1 <= col < MAXSIZE ->
  1 <= row' < MAXSIZE -> 1 <= col' < MAXSIZE ->
  format_point MAXSIZE (Coord row col) = Ok s ->
  format_point MAXSIZE (Coord row' col') = Ok s ->
  row = row' /\ col = col'.
Proof.
  intros Hmax Hrow Hcol Hrow' Hcol' Hs Hs'.
  destruct (round_trip_below_MAXSIZE MAXSIZE row col MAXSIZE) as (t & Ht & Hback);
    try lia.
  destruct (round_trip_below_MAXSIZE MAXSIZE row' col' MAXSIZE) as (t' & Ht' & Hback');
    try lia.
  rewrite Hs in Ht. injection Ht as <-.
  rewrite Hs' in Ht'. injection Ht' as <-.
  rewrite Hback in Hback'. injection Hback' as -> ->. split; reflexivity.
Qed.

(** X7: the text written for a point of the board, as [legal_moves] and
    [genmove] write it, is read back as the row and the column of that
    point, on every board smaller than [MAXSIZE]. *)
Theorem point_text_round_trip (boardsize row col : Z) :
  MAXSIZE <= 25 -> 2 <= boardsize < MAXSIZE ->
  1 <= row <= boardsize -> 1 <= col <= boardsize ->
  exists s,
    bind (point_to_coord (Point (row * (boardsize + 1) + col)) boardsize)
      (format_point MAXSIZE) = Ok s
    /\ move_to_coord MAXSIZE s boardsize = Ok (Coord row col).
Proof.
  intros Hmax Hsize Hrow Hcol.
  assert (Hpoint : point_to_coord (Point (row * (boardsize + 1) + col)) boardsize
                   = Ok (Coord row col)).
  { apply point_to_coord_at. lia. }
  rewrite Hpoint. cbn [bind].
  apply round_trip_below_MAXSIZE; lia.
Qed.

(** X8: [format_point] accepts row 0 and column 0, which are no
    coordinates of a board: within its bounds it always writes a text, and
    column 0 is written with the last letter, Z. *)
Theorem format_point_accepts_zero (row col : Z) :
  MAXSIZE <= 25 -> 0 <= row < MAXSIZE -> 0 <= col < MAXSIZE ->
  exists c, format_point MAXSIZE (Coord row col) = Ok (String c (py_str row))
    /\ (col = 0 -> c = "Z"%char).
Proof.
  intros Hmax Hrow Hcol. unfold format_point.
  destruct (Z.leb_spec MAXSIZE 25); [| lia].
  destruct (Z.leb_spec 0 row); [| lia]. destruct (Z.ltb_spec row MAXSIZE); [| lia].
  destruct (Z.leb_spec 0 col); [| lia]. destruct (Z.ltb_spec col MAXSIZE); [| lia].
  cbn [negb andb orb].
  destruct (Z.eq_dec col 0) as [-> | Hpos].
  - eexists. split; [reflexivity | reflexivity].
  - destruct (column_letter_back (Z.to_nat (col - 1))) as (c & Hidx & _); [lia |].
    replace (Z.of_nat (Z.to_nat (col - 1)) + 1 - 1) with (col - 1) in Hidx by lia.
    rewrite Hidx. exists c. split; [reflexivity | intros; lia].
Qed.

End CoordinateUse.

(** ** Facts about the colours *)

Lemma lower_char_not_B (c : ascii) : Ascii.eqb "B" (lower_char c) = false.
Proof. destruct c as [[] [] [] [] [] [] [] []]; reflexivity. Qed.

(** X9: the commands lower the colour argument before they look it up, so
    they get Black for "b", White for "w", the code of the empty point for
    "e", in either case of the letter, and never the border code: the key
    "BORDER" cannot be reached. *)
Theorem color_to_int_lowered (s : string) (c : Color) :
  color_to_int (lower s) = Returns c ->
  (lower s = "b" /\ c = BLACK) \/ (lower s = "w" /\ c = WHITE)
  \/ (lower s = "e" /\ c = EMPTY).
Proof.
  unfold color_to_int. cbn [dict_get].
  destruct (String.eqb_spec "b" (lower s)) as [<- | _];
    [intros [= <-]; left; split; reflexivity |].
  destruct (String.eqb_spec "w" (lower s)) as [<- | _];
    [intros [= <-]; right; left; split; reflexivity |].
  destruct (String.eqb_spec "e" (lower s)) as [<- | _];
    [intros [= <-]; right; right; split; reflexivity |].
  assert (Hborder : String.eqb "BORDER" (lower s) = false).
  { destruct s as [| a r]; [reflexivity |].
    cbn [lower String.eqb]. rewrite lower_char_not_B. reflexivity. }
  rewrite Hborder. discriminate.
Qed.

(** ** Facts about the searches without a table *)

Section PlainSearchShape.

Context {B : Type} {BO : BoardOps B}.

Lemma alphabeta_for_window
  (search : B -> Z -> Z -> Z -> Z -> list string -> option (Z * Z * (B * list string)))
  (points : list Z) :
  forall state alpha beta depth moveDepth move out v mv state' out',
    alpha <= beta ->
    alphabeta_for search points state alpha beta depth moveDepth move out
    = Some (v, mv, (state', out')) ->
    alpha <= v <= beta /\ (mv = move \/ In mv points).
Proof.
  induction points as [| m rest IH];
    intros state alpha beta depth moveDepth move out v mv state' out' Hwin Hrun.
  - simpl in Hrun. injection Hrun as <- <- _ _. split; [lia | left; reflexivity].
  - simpl in Hrun.
    destruct (search (play_move state m (current_player state)) (- beta) (- alpha)
                (depth + 1) moveDepth out)
      as [[[v1 mv1] [state1 out1]] |]; [| discriminate].
    destruct (Z.gtb_spec (- v1) alpha) as [Hgt | Hle];
      [destruct (moveDepth >? depth) |]; cbv beta iota in Hrun;
      (destruct (Z.geb_spec (- v1) beta) as [Hcut | Hcut];
       [injection Hrun as <- <- _ _; split; [lia | simpl; auto]
       | apply IH in Hrun; [| lia];
         destruct Hrun as [Hv [-> | Hin]]; (split; [lia | simpl; auto])]).
Qed.

(** X12: [alphabeta] is fail-hard. At the end of the game it returns the
    static evaluation and the move -1; elsewhere, called with alpha not
    above beta, the value it returns lies between alpha and beta, and the
    move is -1 or one of the empty points. *)
Theorem alphabeta_within_window
  (fuel : nat) (state : B) (alpha beta depth moveDepth : Z) (out : list string)
  (v mv : Z) (state' : B) (out' : list string) :
  alphabeta fuel state alpha beta depth moveDepth out = Some (v, mv, (state', out')) ->
  (endOfGame state = true -> v = staticallyEvaluateForToPlay state /\ mv = -1)
  /\ (endOfGame state = false -> alpha <= beta ->
      alpha <= v <= beta /\ (mv = -1 \/ In mv (get_empty_points state))).
Proof.
  destruct fuel as [| fuel]; [discriminate |].
  simpl. destruct (endOfGame state).
  - intros [= <- <- _ _]. split; [auto | discriminate].
  - intros Hrun. split; [discriminate |]. intros _ Hwin.
    eapply alphabeta_for_window; eassumption.
Qed.

Lemma alphabeta_for_quiet
  (search : B -> Z -> Z -> Z -> Z -> list string -> option (Z * Z * (B * list string)))
  (depth moveDepth : Z) :
  moveDepth <= depth ->
  (forall state alpha beta out v mv state' out',
      search state alpha beta (depth + 1) moveDepth out = Some (v, mv, (state', out')) ->
      out' = out) ->
  forall points state alpha beta move out v mv state' out',
    alphabeta_for search points state alpha beta depth moveDepth move out
    = Some (v, mv, (state', out')) ->
    mv = move /\ out' = out.
Proof.
  intros Hdepth Hsearch points.
  induction points as [| m rest IH]; intros state alpha beta move out v mv state' out' Hrun.
  - simpl in Hrun. injection Hrun as _ <- _ <-. split; reflexivity.
  - simpl in Hrun.
    destruct (search (play_move state m (current_player state)) (- beta) (- alpha)
                (depth + 1) moveDepth out)
      as [[[v1 mv1] [state1 out1]] |] eqn:Hcall; [| discriminate].
    apply Hsearch in Hcall. subst out1.
    destruct (Z.gtb_spec moveDepth depth) as [Hgt | _]; [lia |].
    assert (Hupd : (if - v1 >? alpha then (moveDepth, move, out) else (moveDepth, move, out))
                   = (moveDepth, move, out)) by (destruct (- v1 >? alpha); reflexivity).
    rewrite Hupd in Hrun.
    destruct (- v1 >=? beta).
    + injection Hrun as _ <- _ <-. split; reflexivity.
    + apply IH in Hrun. exact Hrun.
Qed.

(** X13: a call of [alphabeta] whose [moveDepth] is not above its depth
    names no move and prints nothing, and neither does any call below it:
    it returns the move -1 and leaves the output as it was. *)
Theorem alphabeta_quiet_below_moveDepth (fuel : nat) :
  forall state alpha beta depth moveDepth out v mv state' out',
    moveDepth <= depth ->
    alphabeta fuel state alpha beta depth moveDepth out = Some (v, mv, (state', out')) ->
    mv = -1 /\ out' = out.
Proof.
  induction fuel as [| fuel IH];
    intros state alpha beta depth moveDepth out v mv state' out' Hdepth Hrun.
  - discriminate.
  - simpl in Hrun.
    destruct (endOfGame state); [injection Hrun as _ <- _ <-; split; reflexivity |].
    eapply alphabeta_for_quiet; [exact Hdepth | | exact Hrun].
    intros state1 alpha1 beta1 out1 v1 mv1 state1' out1' Hcall.
    eapply IH; [| exact Hcall]. lia.
Qed.

Lemma negamaxBoolean_for_boolean
  (search : B -> Z -> Z -> list string -> option (Z * Z * (B * list string)))
  (points : list Z) :
  forall state depth moveDepth move out v mv state' out',
    negamaxBoolean_for search points state depth moveDepth move out
    = Some (v, mv, (state', out')) ->
    (v = 0 \/ v = 1) /\ (mv = move \/ In mv points).
Proof.
  induction points as [| m rest IH];
    intros state depth moveDepth move out v mv state' out' Hrun.
  - simpl in Hrun. injection Hrun as <- <- _ _. split; auto.
  - simpl in Hrun.
    destruct (search (play_move state m (current_player state)) (depth + 1) moveDepth out)
      as [[[v1 mv1] [state1 out1]] |]; [| discriminate].
    destruct (negb (truthy v1)).
    + destruct (moveDepth >? depth); injection Hrun as <- <- _ _;
        (split; [auto | simpl; auto]).
    + apply IH in Hrun. destruct Hrun as (Hv & [-> | Hin]); (split; [exact Hv | simpl; auto]).
Qed.

End PlainSearchShape.

Section PlainSearchFacts.

Context {B : Type} {BO : BoardOps B}.

(** On the empty points, [undoMove] takes back what [play_move] did. *)
Hypothesis undo_play :
  forall (b : B) (m : Z),
    In m (get_empty_points b) -> undoMove (play_move b m (current_player b)) = b.

Lemma alphabeta_for_restores
  (search : B -> Z -> Z -> Z -> Z -> list string -> option (Z * Z * (B * list string))) :
  (forall state alpha beta depth moveDepth out v mv state' out',
      search state alpha beta depth moveDepth out = Some (v, mv, (state', out')) ->
      state' = state) ->
  forall points state alpha beta depth moveDepth move out v mv state' out',
    (forall m, In m points -> In m (get_empty_points state)) ->
    alphabeta_for search points state alpha beta depth moveDepth move out
    = Some (v, mv, (state', out')) ->
    state' = state.
Proof.
  intros Hsearch points.
  induction points as [| m rest IH];
    intros state alpha beta depth moveDepth move out v mv state' out' Hpoints Hrun.
  - simpl in Hrun. injection Hrun as _ _ <- _. reflexivity.
  - simpl in Hrun.
    destruct (search (play_move state m (current_player state)) (- beta) (- alpha)
                (depth + 1) moveDepth out)
      as [[[v1 mv1] [state1 out1]] |] eqn:Hcall; [| discriminate].
    apply Hsearch in Hcall. subst state1.
    rewrite undo_play in Hrun by (apply Hpoints; left; reflexivity).
    destruct (if - v1 >? alpha then _ else _) as [[moveDepth1 move1] out2].
    destruct (- v1 >=? beta).
    + injection Hrun as _ _ <- _. reflexivity.
    + apply IH in Hrun; [exact Hrun |].
      intros m' Hm'. apply Hpoints. right. exact Hm'.
Qed.

Lemma alphabeta_restores (fuel : nat) :
  forall state alpha beta depth moveDepth out v mv state' out',
    alphabeta fuel state alpha beta depth moveDepth out = Some (v, mv, (state', out')) ->
    state' = state.
Proof.
  induction fuel as [| fuel IH];
    intros state alpha beta depth moveDepth out v mv state' out' Hrun.
  - discriminate.
  - simpl in Hrun.
    destruct (endOfGame state); [injection Hrun as _ _ <- _; reflexivity |].
    eapply alphabeta_for_restores; [exact IH | | exact Hrun]. auto.
Qed.

Lemma negamaxBoolean_for_restores
  (search : B -> Z -> Z -> list string -> option (Z * Z * (B * list string))) :
  (forall state depth moveDepth out v mv state' out',
      search state depth moveDepth out = Some (v, mv, (state', out')) ->
      state' = state) ->
  forall points state depth moveDepth move out v mv state' out',
    (forall m, In m points -> In m (get_empty_points state)) ->
    negamaxBoolean_for search points state depth moveDepth move out
    = Some (v, mv, (state', out')) ->
    state' = state.
Proof.
  intros Hsearch points.
  induction points as [| m rest IH];
    intros state depth moveDepth move out v mv state' out' Hpoints Hrun.
  - simpl in Hrun. injection Hrun as _ _ <- _. reflexivity.
  - simpl in Hrun.
    destruct (search (play_move state m (current_player state)) (depth + 1) moveDepth out)
      as [[[v1 mv1] [state1 out1]] |] eqn:Hcall; [| discriminate].
    apply Hsearch in Hcall. subst state1.
    rewrite undo_play in Hrun by (apply Hpoints; left; reflexivity).
    destruct (negb (truthy v1)).
    + destruct (moveDepth >? depth); injection Hrun as _ _ <- _; reflexivity.
    + apply IH in Hrun; [exact Hrun |].
      intros m' Hm'. apply Hpoints. right. exact Hm'.
Qed.

Lemma negamaxBoolean_restores (fuel : nat) :
  forall state depth moveDepth out v mv state' out',
    negamaxBoolean fuel state depth moveDepth out = Some (v, mv, (state', out')) ->
    state' = state.
Proof.
  induction fuel as [| fuel IH];
    intros state depth moveDepth out v mv state' out' Hrun.
  - discriminate.
  - simpl in Hrun.
    destruct (endOfGame state); [injection Hrun as _ _ <- _; reflexivity |].
    eapply negamaxBoolean_for_restores; [exact IH | | exact Hrun]. auto.
Qed.

(** X11: when a call of [alphabeta] returns, the board is the board it was
    called with, and so is its fingerprint: every move it applied has been
    undone. *)
Theorem alphabeta_restores_board
  (fuel : nat) (state : B) (alpha beta depth moveDepth : Z) (out : list string)
  (v mv : Z) (state' : B) (out' : list string) :
  alphabeta fuel state alpha beta depth moveDepth out = Some (v, mv, (state', out')) ->
  state' = state /\ hash state' = hash state.
Proof.
  intros Hrun. apply alphabeta_restores in Hrun. subst state'. split; reflexivity.
Qed.

(** X14: when a call of [negamaxBoolean] returns, the board is the board it
    was called with. Away from the end of the game the first component of
    the result is False (0) or True (1) and the move is -1 or an empty
    point of the board. *)
Theorem negamaxBoolean_restores_board
  (fuel : nat) (state : B) (depth moveDepth : Z) (out : list string)
  (v mv : Z) (state' : B) (out' : list string) :
  negamaxBoolean fuel state depth moveDepth out = Some (v, mv, (state', out')) ->
  state' = state
  /\ (endOfGame state = false ->
      (v = 0 \/ v = 1) /\ (mv = -1 \/ In mv (get_empty_points state))).
Proof.
  intros Hrun. split; [eapply negamaxBoolean_restores, Hrun |].
  destruct fuel as [| fuel]; [discriminate |].
  simpl in Hrun. intros Hend. rewrite Hend in Hrun.
  eapply negamaxBoolean_for_boolean, Hrun.
Qed.

(** *** The searches return *)

(** The boards of a game: a move on an empty point of such a board gives
    such a board with fewer empty points. *)
Variable legit : B -> Prop.

Hypothesis play_fills :
  forall (b : B) (m : Z),
    legit b -> In m (get_empty_points b) ->
    legit (play_move b m (current_player b))
    /\ (length (get_empty_points (play_move b m (current_player b)))
        < length (get_empty_points b))%nat.

Lemma alphabeta_for_total
  (search : B -> Z -> Z -> Z -> Z -> list string -> option (Z * Z * (B * list string)))
  (state : B) :
  (forall m alpha beta depth moveDepth out,
      In m (get_empty_points state) ->
      exists v mv out',
        search (play_move state m (current_player state)) alpha beta depth moveDepth out
        = Some (v, mv, (play_move state m (current_player state), out'))) ->
  forall points alpha beta depth moveDepth move out,
    (forall m, In m points -> In m (get_empty_points state)) ->
    exists r, alphabeta_for search points state alpha beta depth moveDepth move out = Some r.
Proof.
  intros Hsearch points.
  induction points as [| m rest IH]; intros alpha beta depth moveDepth move out Hpoints.
  - simpl. eauto.
  - simpl.
    destruct (Hsearch m (- beta) (- alpha) (depth + 1) moveDepth out) as (v & mv & out' & ->);
      [apply Hpoints; left; reflexivity |].
    rewrite undo_play by (apply Hpoints; left; reflexivity).
    destruct (if - v >? alpha then _ else _) as [[moveDepth1 move1] out2].
    destruct (- v >=? beta); [eauto |].
    apply IH. intros m' Hm'. apply Hpoints. right. exact Hm'.
Qed.

Lemma alphabeta_total (fuel : nat) :
  forall state alpha beta depth moveDepth out,
    legit state ->
    (length (get_empty_points state) < fuel)%nat ->
    exists r, alphabeta fuel state alpha beta depth moveDepth out = Some r.
Proof.
  induction fuel as [| fuel IH]; intros state alpha beta depth moveDepth out Hlegit Hfuel.
  - lia.
  - simpl. destruct (endOfGame state); [eauto |].
    apply alphabeta_for_total; [| auto].
    intros m alpha1 beta1 depth1 moveDepth1 out1 Hm.
    destruct (play_fills state m Hlegit Hm) as [Hlegit1 Hless].
    destruct (IH (play_move state m (current_player state)) alpha1 beta1 depth1 moveDepth1 out1)
      as [[[v mv] [state1 out']] Hcall]; [exact Hlegit1 | lia |].
    pose proof (alphabeta_restores _ _ _ _ _ _ _ _ _ _ _ Hcall) as ->.
    eauto.
Qed.

Lemma negamaxBoolean_for_total
  (search : B -> Z -> Z -> list string -> option (Z * Z * (B * list string)))
  (state : B) :
  (forall m depth moveDepth out,
      In m (get_empty_points state) ->
      exists v mv out',
        search (play_move state m (current_player state)) depth moveDepth out
        = Some (v, mv, (play_move state m (current_player state), out'))) ->
  forall points depth moveDepth move out,
    (forall m, In m points -> In m (get_empty_points state)) ->
    exists r, negamaxBoolean_for search points state depth moveDepth move out = Some r.
Proof.
  intros Hsearch points.
  induction points as [| m rest IH]; intros depth moveDepth move out Hpoints.
  - simpl. eauto.
  - simpl.
    destruct (Hsearch m (depth + 1) moveDepth out) as (v & mv & out' & ->);
      [apply Hpoints; left; reflexivity |].
    rewrite undo_play by (apply Hpoints; left; reflexivity).
    destruct (negb (truthy v)); [destruct (moveDepth >? depth); eauto |].
    apply IH. intros m' Hm'. apply Hpoints. right. exact Hm'.
Qed.

Lemma negamaxBoolean_total (fuel : nat) :
  forall state depth moveDepth out,
    legit state ->
    (length (get_empty_points state) < fuel)%nat ->
    exists r, negamaxBoolean fuel state depth moveDepth out = Some r.
Proof.
  induction fuel as [| fuel IH]; intros state depth moveDepth out Hlegit Hfuel.
  - lia.
  - simpl. destruct (endOfGame state); [eauto |].
    apply negamaxBoolean_for_total; [| auto].
    intros m depth1 moveDepth1 out1 Hm.
    destruct (play_fills state m Hlegit Hm) as [Hlegit1 Hless].
    destruct (IH (play_move state m (current_player state)) depth1 moveDepth1 out1)
      as [[[v mv] [state1 out']] Hcall]; [exact Hlegit1 | lia |].
    pose proof (negamaxBoolean_restores _ _ _ _ _ _ _ _ _ Hcall) as ->.
    eauto.
Qed.

(** X15: on the boards of a game, the two searches without a table come to
    an end: a bound above the number of empty points is enough for
    [alphabeta] and for [negamaxBoolean] to return. *)
Theorem plain_searches_return
  (fuel : nat) (state : B) (alpha beta depth moveDepth : Z) (out : list string) :
  legit state ->
  (length (get_empty_points state) < fuel)%nat ->
  (exists r, alphabeta fuel state alpha beta depth moveDepth out = Some r)
  /\ (exists r, negamaxBoolean fuel state depth moveDepth out = Some r).
Proof.
  intros Hlegit Hfuel. split;
    [apply alphabeta_total | apply negamaxBoolean_total]; assumption.
Qed.

End PlainSearchFacts.

Section SolveForColorFacts.

Context {B : Type} {BO : BoardOps B} {DO : DrawOps B}.

Variable INFINITY : Z.

Hypothesis undo_play :
  forall (b : B) (m : Z),
    In m (get_empty_points b) -> undoMove (play_move b m (current_player b)) = b.

(** X16: [solveForColor] answers 1, 0 or -1. When the first search finds a
    win for the side to move it returns at once, and the board keeps the
    [drawWinner] the function gave it, the opponent of [color]; the old
    [drawWinner] is put back only on the way to the second search. *)
Theorem solveForColor_leaves_drawWinner
  (fuel : nat) (state : B) (color : Color) (out : list string)
  (code mv : Z) (state' : B) (out' : list string) :
  solveForColor INFINITY fuel state color out = Some (code, mv, (state', out')) ->
  (code = 1 \/ code = 0 \/ code = -1)
  /\ (code = 1 ->
      state' = set_drawWinner state (opponent color)
      /\ current_player (set_drawWinner state (opponent color)) = color)
  /\ (code = 0 ->
      state' = set_drawWinner (set_drawWinner state (opponent color)) (drawWinner state))
  /\ (state' = set_drawWinner state (opponent color)
      \/ state' = set_drawWinner (set_drawWinner state (opponent color)) (drawWinner state)).
Proof.
  unfold solveForColor.
  destruct (negamaxBoolean fuel (set_drawWinner state (opponent color)) 0 INFINITY out)
    as [[[w mv1] [state1 out1]] |] eqn:Hfirst; [| discriminate].
  pose proof (negamaxBoolean_restores undo_play _ _ _ _ _ _ _ _ _ Hfirst) as ->.
  destruct (truthy w).
  - cbn [andb].
    destruct (Color_eqb (current_player (set_drawWinner state (opponent color))) color)
      eqn:Hcolour; cbn [negb].
    + intros [= <- <- <- <-]. apply Color_eqb_eq in Hcolour.
      repeat split; auto; discriminate.
    + intros [= <- <- <- <-].
      repeat split; auto; discriminate.
  - cbn [andb].
    destruct (negamaxBoolean fuel
                (set_drawWinner (set_drawWinner state (opponent color)) (drawWinner state))
                0 INFINITY out1)
      as [[[d mv2] [state2 out2]] |] eqn:Hsecond; [| discriminate].
    pose proof (negamaxBoolean_restores undo_play _ _ _ _ _ _ _ _ _ Hsecond) as ->.
    destruct (truthy d); intros [= <- <- <- <-];
      repeat split; auto; discriminate.
Qed.

End SolveForColorFacts.

(** ** More about the searcher and the driver *)

Section SearchRecords.

Context {B T : Type} {BO : BoardOps B} {TO : TableOps T}.

Variable INFINITY : Z.

Hypothesis undo_play :
  forall (b : B) (m : Z),
    In m (get_empty_points b) -> undoMove (play_move b m (current_player b)) = b.

(** A stored score is what the next lookup of the same key finds. *)
Hypothesis lookup_stored :
  forall (table : T) (h v : Z),
    exists mv, tt_lookup (tt_storeScore table h v) h = Some (Some v, mv).

Lemma alphabeta_tt_restores (fuel : nat) :
  forall state alpha beta table depth depthMove depthLimit v state' table',
    alphabeta_tt fuel state alpha beta table depth depthMove depthLimit
    = Some (v, (state', table')) -> state' = state.
Proof.
  induction fuel as [| fuel IH];
    intros state alpha beta table depth depthMove depthLimit v state' table' Hrun.
  - discriminate.
  - simpl in Hrun.
    destruct (recorded_win _); [injection Hrun as _ <- _; reflexivity |].
    destruct (endOfGame state || (depth =? depthLimit));
      [injection Hrun as _ <- _; reflexivity |].
    pose proof (orderMoves_restores undo_play state) as Hprobe.
    pose proof (orderMoves_moves undo_play state) as Hmoves.
    destruct (orderMoves state) as [orderedMoves state1].
    simpl in Hprobe, Hmoves. subst state1.
    eapply (alphabeta_loop_restores undo_play); [| exact Hmoves | exact Hrun].
    intros state2 alpha2 beta2 table2 v2 state2' table2'. apply IH.
Qed.

Lemma alphabeta_loop_stores
  (search : B -> Z -> Z -> T -> Z -> Z -> Z -> option (Z * (B * T)))
  (orderedMoves : list (Z * Z)) :
  forall state alpha beta table depth depthMove depthLimit v state' table',
    alphabeta_loop search orderedMoves state alpha beta table depth depthMove depthLimit
    = Some (v, (state', table')) ->
    (exists table0, table' = tt_storeScore table0 (hash state') v)
    /\ (alpha <= beta -> alpha <= v <= beta).
Proof.
  induction orderedMoves as [| m rest IH];
    intros state alpha beta table depth depthMove depthLimit v state' table' Hrun.
  - simpl in Hrun. injection Hrun as <- <- <-. split; [eauto | lia].
  - simpl in Hrun.
    destruct (search _ _ _ _ _ _ _) as [[v1 [state1 table1]] |]; [| discriminate].
    destruct (Z.geb_spec (- v1) beta) as [Hcut | Hcut].
    + injection Hrun as <- <- <-. split; [eauto | lia].
    + apply IH in Hrun. destruct Hrun as [Hstored Hwin].
      split; [exact Hstored |].
      intros Hle. destruct (Z.gtb_spec (- v1) alpha); lia.
Qed.

(** What a call of the searcher leaves in the table for its state. *)
Lemma alphabeta_tt_recorded (fuel : nat) (state : B) (alpha beta : Z) (table : T)
  (depth depthMove depthLimit v : Z) (state' : B) (table' : T) :
  alphabeta_tt fuel state alpha beta table depth depthMove depthLimit
  = Some (v, (state', table')) ->
  exists mv, tt_lookup table' (hash state) = Some (Some v, mv).
Proof.
  intros Hrun. pose proof (alphabeta_tt_restores _ _ _ _ _ _ _ _ _ _ _ Hrun) as ->.
  destruct fuel as [| fuel]; [discriminate |]. simpl in Hrun.
  destruct (tt_lookup table (hash state)) as [[[s |] mv] |] eqn:Hlookup; simpl in Hrun.
  1: destruct (Z.eqb_spec s 5) as [-> | _];
     [injection Hrun as <- <-; rewrite Hlookup; eauto |].
  all: destruct (endOfGame state || (depth =? depthLimit));
    [injection Hrun as <- <-; apply lookup_stored |];
    destruct (orderMoves state) as [orderedMoves state1];
    apply alphabeta_loop_stores in Hrun; destruct Hrun as [[table0 ->] _];
    apply lookup_stored.
Qed.

(** X17: a call of the searcher that returns has the value it returns in
    the table, as the score of the state it was called on; and when it
    expanded the node with alpha not above beta, that value lies between
    alpha and beta. *)
Theorem alphabeta_tt_records_value
  (fuel : nat) (state : B) (alpha beta : Z) (table : T)
  (depth depthMove depthLimit v : Z) (state' : B) (table' : T) :
  alphabeta_tt (S fuel) state alpha beta table depth depthMove depthLimit
  = Some (v, (state', table')) ->
  (exists mv, tt_lookup table' (hash state) = Some (Some v, mv))
  /\ (recorded_win (tt_lookup table (hash state)) = false ->
      endOfGame state || (depth =? depthLimit) = false ->
      alpha <= beta -> alpha <= v <= beta).
Proof.
  intros Hrun. split; [eapply alphabeta_tt_recorded, Hrun |].
  intros Hnone Hinner Hwin. simpl in Hrun. rewrite Hnone, Hinner in Hrun.
  destruct (orderMoves state) as [orderedMoves state1].
  apply alphabeta_loop_stores in Hrun. apply Hrun, Hwin.
Qed.

Lemma deepening_loop_records (fuel : nat) (state : B) (limits : list Z) :
  forall table r r' b',
    (limits = [] -> exists mv, tt_lookup table (hash state) = Some (Some r, mv)) ->
    deepening_loop INFINITY fuel limits (mkGoBoard state table) r = Some (r', b') ->
    pos b' = state
    /\ exists mv, tt_lookup (hashTable b') (hash state) = Some (Some r', mv).
Proof.
  induction limits as [| d rest IH]; intros table r r' b' Hrec Hrun.
  - simpl in Hrun. injection Hrun as <- <-. split; [reflexivity | apply Hrec; reflexivity].
  - simpl in Hrun. unfold search_root in Hrun. cbn [pos hashTable] in Hrun.
    destruct (alphabeta_tt fuel state (- INFINITY) INFINITY table 0 INFINITY d)
      as [[v [state1 table1]] |] eqn:Hcall; [| discriminate].
    pose proof (alphabeta_tt_recorded _ _ _ _ _ _ _ _ _ _ _ Hcall) as Hv.
    pose proof (alphabeta_tt_restores _ _ _ _ _ _ _ _ _ _ _ Hcall) as ->.
    destruct ((v =? 5) || (v =? -5)).
    + injection Hrun as <- <-. split; [reflexivity | exact Hv].
    + eapply IH; [| exact Hrun]. intros _. exact Hv.
Qed.

Lemma iterativeDeepening_records_root_aux
  (fuel : nat) (board : GoBoard B T) (r : Z) (b' : GoBoard B T) :
  get_empty_points (pos board) <> [] ->
  iterativeDeepening INFINITY fuel board = Some (r, b') ->
  pos b' = pos board
  /\ exists mv, tt_lookup (hashTable b') (hash (pos board)) = Some (Some r, mv).
Proof.
  intros Hpoints Hrun. unfold iterativeDeepening, depth_limits in Hrun.
  destruct board as [state table]. cbn [pos] in *.
  eapply deepening_loop_records; [| exact Hrun].
  destruct (get_empty_points state); [contradiction | discriminate].
Qed.

(** X18: after the driver has run on a board with an empty point, the
    position is the one before, and the table holds the value the driver
    returns as the score of the root. *)
Theorem iterativeDeepening_records_root
  (fuel : nat) (board : GoBoard B T) :
  get_empty_points (pos board) <> [] ->
  (length (get_empty_points (pos board)) < fuel)%nat ->
  exists r b',
    iterativeDeepening INFINITY fuel board = Some (r, b')
    /\ pos b' = pos board
    /\ exists mv, tt_lookup (hashTable b') (hash (pos board)) = Some (Some r, mv).
Proof.
  intros Hpoints Hfuel.
  destruct (iterativeDeepening_total INFINITY fuel board Hfuel) as (r & b' & Hrun).
  exists r, b'. split; [exact Hrun |].
  eapply iterativeDeepening_records_root_aux; eassumption.
Qed.

End SearchRecords.

(** ** More about the commands *)

Section CommandUse.

Context {B T : Type} {BO : BoardOps B} {TO : TableOps T} {SO : SyncOps B T}
  {GO : GameOps B}.

Variable MAXSIZE : Z.
Variable INFINITY : Z.

Lemma solve_report_running (self : GtpConnection B T) (c : Color) (r : Z) (move : string) :
  genMoveRunning self = true -> solve_report self c r move = self.
Proof. intros Hrun. unfold solve_report. rewrite Hrun. reflexivity. Qed.

(** Under [genmove] the solver is silent. *)
Lemma solve_cmd_running (fuel : nat) (deadline : bool) (self self' : GtpConnection B T)
  (ret : Move) :
  genMoveRunning self = true ->
  solve_cmd MAXSIZE INFINITY fuel deadline self = Some (self', ret) ->
  stdout self' = stdout self /\ genMoveRunning self' = true /\ time self' = time self.
Proof.
  intros Hgen. unfold solve_cmd, solve_try.
  destruct (negb (alarm_in_range (time self)));
    [unfold solve_except; rewrite Hgen; intros [= <- _]; auto |].
  destruct (alarm_armed (time self) && deadline).
  - cbv beta iota delta [handler]. unfold solve_except. rewrite Hgen.
    intros [= <- _]. auto.
  - destruct (iterativeDeepening INFINITY fuel (copy (board self))) as [[r b] |];
      [| discriminate].
    destruct (solve_move MAXSIZE _ b) as [move | e].
    + rewrite solve_report_running by exact Hgen.
      destruct (recorded_move _) as [m | e'].
      * intros [= <- _]. auto.
      * unfold solve_except. cbn [genMoveRunning set_board]. rewrite Hgen.
        intros [= <- _]. auto.
    + unfold solve_except. cbn [genMoveRunning set_board]. rewrite Hgen.
      intros [= <- _]. auto.
Qed.

(** X10: while [genmove] runs it ([genMoveRunning] set), [solve_cmd]
    writes nothing, whether the search ends, times out or fails; the time
    limit and the flag stay as they are. *)
Theorem solve_cmd_silent_in_genmove
  (fuel : nat) (deadline : bool) (self : GtpConnection B T) :
  genMoveRunning self = true ->
  (length (get_empty_points (pos (copy (board self)))) < fuel)%nat ->
  exists self' ret,
    solve_cmd MAXSIZE INFINITY fuel deadline self = Some (self', ret)
    /\ stdout self' = stdout self
    /\ genMoveRunning self' = true /\ time self' = time self.
Proof.
  intros Hgen Hfuel.
  destruct (solve_cmd_total MAXSIZE INFINITY fuel deadline self Hfuel) as (self' & ret & Hrun).
  exists self', ret. split; [exact Hrun |].
  eapply solve_cmd_running; eassumption.
Qed.

(** X21: [timelimit] takes any integer [int] reads from its argument and
    checks nothing: the integer becomes the time limit, the answer is the
    empty response, and the board and the flag are as before. When the
    integer is 0 no alarm is armed, and no [solve] afterwards depends on
    the deadline; when it is no C int the alarm cannot be set, and every
    [solve] afterwards (outside [genmove]) answers "unknown". *)
Theorem time_limit_cmd_stores_budget
  (a : string) (rest : list string) (self : GtpConnection B T) (seconds : Z) :
  py_int a = Ok seconds ->
  exists self1,
    time_limit_cmd (a :: rest) self = (self1, Returns tt)
    /\ time self1 = seconds
    /\ board self1 = board self
    /\ genMoveRunning self1 = genMoveRunning self
    /\ stdout self1 = stdout self ++ [written ""]
    /\ (seconds = 0 ->
        forall fuel deadline,
          solve_cmd MAXSIZE INFINITY fuel deadline self1
          = solve_cmd MAXSIZE INFINITY fuel false self1)
    /\ (alarm_in_range seconds = false -> genMoveRunning self = false ->
        forall fuel deadline,
          solve_cmd MAXSIZE INFINITY fuel deadline self1
          = Some (respond self1 "unknown", PASS)).
Proof.
  intros Hint. unfold time_limit_cmd. rewrite Hint.
  eexists. split; [reflexivity |].
  split; [reflexivity |]. split; [reflexivity |]. split; [reflexivity |].
  split; [reflexivity |]. split.
  - intros -> fuel deadline. unfold solve_cmd, solve_try. reflexivity.
  - intros Hrange Hgen fuel deadline. unfold solve_cmd, solve_try.
    cbn [time respond]. rewrite Hrange. cbn [negb]. unfold solve_except.
    cbn [genMoveRunning respond]. rewrite Hgen. reflexivity.
Qed.

(** [copy] gives a board with the same position and the same table;
    [updateHash] takes the table of the searched copy and leaves the
    position. *)
Hypothesis copy_same :
  forall b : GoBoard B T, pos (copy b) = pos b /\ hashTable (copy b) = hashTable b.

Hypothesis updateHash_takes_table :
  forall live searched : GoBoard B T,
    pos (updateHash live searched) = pos live
    /\ hashTable (updateHash live searched) = hashTable searched.

(** X22: on a full board the driver searches nothing and writes nothing
    into the table; when the table has no entry for the position, the
    lookup of the move fails and [solve] answers "unknown". *)
Theorem solve_cmd_full_board_unknown
  (fuel : nat) (deadline : bool) (self : GtpConnection B T) :
  genMoveRunning self = false ->
  get_empty_points (pos (board self)) = [] ->
  tt_lookup (hashTable (board self)) (hash (pos (board self))) = None ->
  exists self',
    solve_cmd MAXSIZE INFINITY fuel deadline self = Some (self', PASS)
    /\ stdout self' = stdout self ++ [written "unknown"]
    /\ pos (board self') = pos (board self).
Proof.
  intros Hgen Hfull Hnone.
  destruct (copy_same (board self)) as [Hpos Htable].
  unfold solve_cmd, solve_try.
  destruct (negb (alarm_in_range (time self)));
    [unfold solve_except; rewrite Hgen;
     eexists; split; [reflexivity |]; split; reflexivity |].
  destruct (alarm_armed (time self) && deadline).
  - cbv beta iota delta [handler]. unfold solve_except. rewrite Hgen.
    eexists. split; [reflexivity |]. split; reflexivity.
  - unfold iterativeDeepening. rewrite Hpos, Hfull. cbn [length depth_limits seq map deepening_loop].
    destruct (updateHash_takes_table (board self) (copy (board self))) as [Hpos' Htable'].
    unfold solve_move, recorded_move. cbn [board set_board].
    rewrite Hpos', Htable', Htable, Hnone. cbn [bind].
    unfold solve_except. cbn [genMoveRunning set_board]. rewrite Hgen.
    eexists. split; [reflexivity |]. split; [reflexivity | exact Hpos'].
Qed.

Hypothesis undo_play :
  forall (b : B) (m : Z),
    In m (get_empty_points b) -> undoMove (play_move b m (current_player b)) = b.

Hypothesis lookup_stored :
  forall (table : T) (h v : Z),
    exists mv, tt_lookup (tt_storeScore table h v) h = Some (Some v, mv).

(** X23: on a board with an empty point, once the search has returned,
    the entry [solve_cmd] looks up for the board of the connection is
    there, and its score is the value the search returned: the lookup of
    the move cannot fail. *)
Theorem solve_cmd_finds_root_entry
  (fuel : nat) (self : GtpConnection B T) :
  get_empty_points (pos (board self)) <> [] ->
  (length (get_empty_points (pos (board self))) < fuel)%nat ->
  exists r b mv,
    iterativeDeepening INFINITY fuel (copy (board self)) = Some (r, b)
    /\ tt_lookup (hashTable (updateHash (board self) b))
         (hash (pos (updateHash (board self) b)))
       = Some (Some r, mv)
    /\ recorded_move (set_board self (updateHash (board self) b)) = Ok mv.
Proof.
  intros Hpoints Hfuel.
  destruct (copy_same (board self)) as [Hpos Htable].
  destruct (iterativeDeepening_total INFINITY fuel (copy (board self))) as (r & b & Hsearch);
    [rewrite Hpos; exact Hfuel |].
  destruct (iterativeDeepening_records_root_aux INFINITY undo_play lookup_stored
              fuel (copy (board self)) r b) as [Hb [mv Hmv]];
    [rewrite Hpos; exact Hpoints | exact Hsearch |].
  destruct (updateHash_takes_table (board self) b) as [Hpos' Htable'].
  exists r, b, mv. split; [exact Hsearch |].
  assert (Hentry : tt_lookup (hashTable (updateHash (board self) b))
                     (hash (pos (updateHash (board self) b))) = Some (Some r, mv)).
  { rewrite Hpos', Htable'. rewrite Hpos in Hmv. exact Hmv. }
  split; [exact Hentry |].
  unfold recorded_move. cbn [board set_board]. rewrite Hentry. reflexivity.
Qed.

End CommandUse.

Section GenmoveFacts.

Context {B T : Type} {BO : BoardOps B} {TO : TableOps T} {SO : SyncOps B T}
  {GO : GameOps B}.

Variable MAXSIZE : Z.
Variable INFINITY : Z.

(** X19: [genmove] answers once. When it returns it has written exactly
    one response, when it raises it has written none; either way the time
    limit is as before and the solver's flag [genMoveRunning] is down
    again. *)
Theorem genmove_cmd_answers_once
  (fuel : nat) (deadline : bool) (engine_move : Move) (args : list string)
  (self : GtpConnection B T) :
  (length (get_empty_points (pos (copy (board self)))) < fuel)%nat ->
  exists self' o,
    genmove_cmd MAXSIZE INFINITY fuel deadline engine_move args self = Some (self', o)
    /\ time self' = time self
    /\ (genMoveRunning self = false -> genMoveRunning self' = false)
    /\ match o with
       | Returns _ => exists response, stdout self' = stdout self ++ [written response]
       | Raises _ => stdout self' = stdout self
       end.
Proof.
  intros Hfuel. unfold genmove_cmd.
  destruct (Color_eqb _ _).
  { eexists _, _. split; [reflexivity |]. repeat split; auto. eexists. reflexivity. }
  destruct (_ =? 0)%nat.
  { eexists _, _. split; [reflexivity |]. repeat split; auto. eexists. reflexivity. }
  destruct args as [| a rest].
  { eexists _, _. split; [reflexivity |]. repeat split; auto. }
  destruct (color_to_int (lower a)) as [color | e].
  2: { eexists _, _. split; [reflexivity |]. repeat split; auto. }
  destruct (solve_cmd_total MAXSIZE INFINITY fuel deadline (set_genMoveRunning self true))
    as (self1 & winMove & Hsolve); [exact Hfuel |].
  rewrite Hsolve.
  destruct (solve_cmd_running MAXSIZE INFINITY fuel deadline (set_genMoveRunning self true)
              self1 winMove eq_refl Hsolve)
    as (Hout & _ & Htime).
  cbn [stdout time set_genMoveRunning] in Hout, Htime.
  destruct (negb (is_PASS winMove) && _).
  - destruct (move_text MAXSIZE _ winMove) as [text | e].
    + eexists _, _. split; [reflexivity |].
      cbn [time stdout genMoveRunning respond play_on set_board set_genMoveRunning].
      rewrite Hout, Htime. repeat split; auto. eexists. reflexivity.
    + eexists _, _. split; [reflexivity |].
      cbn [time stdout genMoveRunning set_genMoveRunning].
      rewrite Hout, Htime. repeat split; auto.
  - destruct (move_text MAXSIZE _ engine_move) as [text | e].
    + destruct (is_legal _ engine_move color).
      * eexists _, _. split; [reflexivity |].
        cbn [time stdout genMoveRunning respond play_on set_board set_genMoveRunning].
        rewrite Hout, Htime. repeat split; auto. eexists. reflexivity.
      * eexists _, _. split; [reflexivity |].
        cbn [time stdout genMoveRunning respond set_genMoveRunning].
        rewrite Hout, Htime. repeat split; auto. eexists. reflexivity.
    + eexists _, _. split; [reflexivity |].
      cbn [time stdout genMoveRunning set_genMoveRunning].
      rewrite Hout, Htime. repeat split; auto.
Qed.

(** The table is all [updateHash] takes from the searched copy. *)
Hypothesis updateHash_keeps_position :
  forall live searched : GoBoard B T, pos (updateHash live searched) = pos live.

(** X20: [genmove] puts no stone on the board but the one it answers.
    Either the position is as before (it resigned, passed, called the
    engine's move illegal, or raised), or it has played one move for the
    colour asked for and answered that move's text. *)
Theorem genmove_cmd_plays_its_answer
  (fuel : nat) (deadline : bool) (engine_move : Move) (args : list string)
  (self self' : GtpConnection B T) (o : outcome unit) :
  genmove_cmd MAXSIZE INFINITY fuel deadline engine_move args self = Some (self', o) ->
  pos (board self') = pos (board self)
  \/ exists a rest move color text,
      args = a :: rest /\ color_to_int (lower a) = Returns color
      /\ move_text MAXSIZE self move = Ok text
      /\ pos (board self') = play_move_any (pos (board self)) move color
      /\ stdout self' = stdout self ++ [written text]
      /\ o = Returns tt.
Proof.
  unfold genmove_cmd.
  destruct (Color_eqb _ _); [intros [= <- _]; left; reflexivity |].
  destruct (_ =? 0)%nat; [intros [= <- _]; left; reflexivity |].
  destruct args as [| a rest]; [intros [= <- _]; left; reflexivity |].
  destruct (color_to_int (lower a)) as [color | e] eqn:Hcolor;
    [| intros [= <- _]; left; reflexivity].
  destruct (solve_cmd MAXSIZE INFINITY fuel deadline (set_genMoveRunning self true))
    as [[self1 winMove] |] eqn:Hsolve; [| discriminate].
  destruct (solve_cmd_running MAXSIZE INFINITY fuel deadline (set_genMoveRunning self true)
              self1 winMove eq_refl Hsolve)
    as (Hout & _ & _).
  cbn [stdout set_genMoveRunning] in Hout.
  assert (Hpos : pos (board self1) = pos (board self)).
  { destruct (solve_cmd_live_board MAXSIZE INFINITY fuel deadline (set_genMoveRunning self true)
                  self1 winMove Hsolve)
      as [-> | (r & b & _ & ->)]; [reflexivity | apply updateHash_keeps_position]. }
  assert (Htext : forall mv,
             move_text MAXSIZE (set_genMoveRunning self1 false) mv = move_text MAXSIZE self mv).
  { intros mv. unfold move_text. cbn [board set_genMoveRunning]. rewrite Hpos. reflexivity. }
  destruct (negb (is_PASS winMove) && _).
  - rewrite Htext. destruct (move_text MAXSIZE self winMove) as [text | e] eqn:Hmove.
    + intros [= <- <-]. right. exists a, rest, winMove, color, text.
      cbn [board stdout respond play_on set_board set_genMoveRunning pos].
      rewrite Hpos, Hout. repeat split; auto.
    + intros [= <- _]. left. exact Hpos.
  - rewrite Htext. destruct (move_text MAXSIZE self engine_move) as [text | e] eqn:Hmove.
    + destruct (is_legal _ engine_move color).
      * intros [= <- <-]. right. exists a, rest, engine_move, color, text.
        cbn [board stdout respond play_on set_board set_genMoveRunning pos].
        rewrite Hpos, Hout. repeat split; auto.
      * intros [= <- _]. left. exact Hpos.
    + intros [= <- _]. left. exact Hpos.
Qed.

End GenmoveFacts.

(** ** The dispatcher *)

Section DispatcherFacts.

Context {B T : Type} {BO : BoardOps B} {TO : TableOps T}.

Variable commands : list (string * @Command B T).
Variable exception_str : raised -> string.
Variable format_exc : raised -> string.

Lemma space_is_plain (c : ascii) :
  is_space c = true -> Ascii.eqb c "#" = false /\ is_digit c = false.
Proof. destruct c as [[] [] [] [] [] [] [] []]; simpl; intros H; try discriminate; auto. Qed.

Lemma digit_is_plain (c : ascii) :
  is_digit c = true ->
  Ascii.eqb c "#" = false /\ is_space c = false
  /\ in_chars (String " " (String carriage_return (String tab EmptyString))) c = false.
Proof. destruct c as [[] [] [] [] [] [] [] []]; simpl; intros H; try discriminate; auto. Qed.

Lemma blank_is_space (c : ascii) :
  in_chars (String " " (String carriage_return (String tab EmptyString))) c = true ->
  is_space c = true.
Proof. destruct c as [[] [] [] [] [] [] [] []]; simpl; intros H; try discriminate; auto. Qed.

Lemma split_from_spaces (s : string) :
  string_forall is_space s = true -> split_from EmptyString s = [].
Proof.
  induction s as [| c r IH]; [reflexivity |].
  simpl. destruct (is_space c); [exact IH | discriminate].
Qed.

(** X24: a line of white space only (the empty line and the bare line
    end among them) and a line that begins with # are skipped: no command
    runs, nothing is written, the session is as it was. *)
Theorem get_cmd_skips_blank_and_comment (command : string) (session : GtpSession) :
  string_forall is_space command = true \/ (exists r, command = String "#" r) ->
  get_cmd commands exception_str format_exc command session = Some (session, Returns tt).
Proof.
  intros [Hspace | [r ->]]; unfold get_cmd.
  - destruct command as [| first r]; [reflexivity |].
    destruct (_ =? 0)%nat; [reflexivity |].
    simpl in Hspace. apply andb_prop in Hspace. destruct Hspace as [Hfirst Hrest].
    destruct (space_is_plain first Hfirst) as [-> ->].
    unfold split. cbn [split_from]. rewrite Hfirst. rewrite split_from_spaces by exact Hrest.
    reflexivity.
  - destruct (_ =? 0)%nat; reflexivity.
Qed.

Lemma strip_chars_nonblank (chars : string) (c : ascii) (s : string) :
  in_chars chars c = false ->
  (String.length (strip_chars chars (String c s)) =? 0)%nat = false.
Proof.
  intros Hc. unfold strip_chars. cbn [lstrip_chars]. rewrite Hc. cbn [rstrip_chars].
  rewrite Hc. destruct (rstrip_chars chars s); reflexivity.
Qed.

Lemma drop_digits_app (number rest : string) :
  string_forall is_digit number = true ->
  drop_digits (String.append number rest) = drop_digits rest.
Proof.
  induction number as [| d n IH]; [reflexivity |].
  simpl. destruct (is_digit d); [exact IH | discriminate].
Qed.

Lemma lstrip_app (ws : string) (c : ascii) (r : string) :
  string_forall is_space ws = true -> is_space c = false ->
  lstrip (String.append ws (String c r)) = String c r.
Proof.
  intros Hws Hc. induction ws as [| w ws' IH]; simpl.
  - rewrite Hc. reflexivity.
  - simpl in Hws. destruct (is_space w); [apply IH, Hws | discriminate].
Qed.

Lemma drop_digits_stops (ws : string) (c : ascii) (r : string) :
  string_forall is_space ws = true -> is_digit c = false ->
  drop_digits (String.append ws (String c r)) = String.append ws (String c r).
Proof.
  intros Hws Hc. destruct ws as [| w ws']; simpl.
  - rewrite Hc. reflexivity.
  - simpl in Hws. apply andb_prop in Hws. destruct Hws as [Hw _].
    destruct (space_is_plain w Hw) as [_ ->]. reflexivity.
Qed.

Lemma get_cmd_cons (first : ascii) (rest : string) (session : GtpSession) :
  get_cmd commands exception_str format_exc (String first rest) session
  = if (String.length
          (strip_chars (String " " (String carriage_return (String tab EmptyString)))
             (String first rest)) =? 0)%nat
    then Some (session, Returns tt)
    else if Ascii.eqb first "#" then Some (session, Returns tt)
    else run_command commands exception_str format_exc
           (split (if is_digit first
                   then lstrip (drop_digits (String first rest))
                   else String first rest)) session.
Proof. reflexivity. Qed.

(** X25: the number in front of a command, as the regression tests put
    it, is dropped together with the white space after it: the line runs
    as the line without them. *)
Theorem get_cmd_drops_number
  (number ws : string) (c : ascii) (r : string) (session : GtpSession) :
  number <> EmptyString ->
  string_forall is_digit number = true ->
  string_forall is_space ws = true ->
  is_digit c = false -> is_space c = false -> c <> "#"%char ->
  get_cmd commands exception_str format_exc
    (String.append number (String.append ws (String c r))) session
  = get_cmd commands exception_str format_exc (String c r) session.
Proof.
  intros Hne Hnumber Hws Hdigit Hspace Hhash.
  destruct number as [| d n]; [contradiction |].
  pose proof Hnumber as Hd. simpl in Hd. apply andb_prop in Hd. destruct Hd as [Hd Hn].
  destruct (digit_is_plain d Hd) as (Hdhash & _ & Hdblank).
  assert (Hcblank : in_chars (String " " (String carriage_return (String tab EmptyString))) c
                    = false).
  { destruct (in_chars _ c) eqn:Hin; [| reflexivity].
    apply blank_is_space in Hin. congruence. }
  assert (Hchash : Ascii.eqb c "#" = false)
    by (destruct (Ascii.eqb_spec c "#"); [contradiction | reflexivity]).
  rewrite (get_cmd_cons c r).
  rewrite (strip_chars_nonblank _ c r Hcblank), Hchash, Hdigit.
  change (String.append (String d n) (String.append ws (String c r)))
    with (String d (String.append n (String.append ws (String c r)))).
  rewrite get_cmd_cons.
  rewrite (strip_chars_nonblank _ d _ Hdblank), Hdhash, Hd.
  change (String d (String.append n (String.append ws (String c r))))
    with (String.append (String d n) (String.append ws (String c r))).
  rewrite drop_digits_app by exact Hnumber.
  rewrite drop_digits_stops by assumption.
  rewrite lstrip_app by assumption.
  reflexivity.
Qed.

Lemma debug_msg_connection (session : @GtpSession B T) (msg : string) :
  gtp_connection (debug_msg session msg) = gtp_connection session.
Proof. unfold debug_msg. destruct (_debug_mode session); reflexivity. Qed.

Lemma has_arg_error_passes (self self' : GtpConnection B T) (cmd : string) (argnum : Z) :
  has_arg_error self cmd argnum = (self', false) -> self' = self.
Proof.
  unfold has_arg_error.
  destruct (dict_get argmap cmd) as [[required usage] |]; [| congruence].
  destruct (negb (required =? argnum)); [intros H; discriminate H | congruence].
Qed.

(** X26: [get_cmd] raises nothing of its own. When it raises, the line named
    a command of the dict [commands], the number of arguments passed the
    check, and the exception is the one that command raised on the session
    as it was; what the command did to the connection before it raised
    stays. *)
Theorem get_cmd_raises_only_from_command
  (command : string) (session session' : GtpSession) (e : raised) :
  get_cmd commands exception_str format_exc command session = Some (session', Raises e) ->
  exists command_name args run session1,
    dict_get commands command_name = Some run
    /\ has_arg_error (gtp_connection session) command_name (Z.of_nat (length args))
       = (gtp_connection session, false)
    /\ run args session = Some (session1, Raises e)
    /\ gtp_connection session' = gtp_connection session1.
Proof.
  intros Hrun. unfold get_cmd in Hrun.
  destruct (String.length _ =? 0)%nat eqn:Hlen; [discriminate Hrun |].
  destruct command as [| first rest]; [simpl in Hlen; discriminate Hlen |].
  destruct (Ascii.eqb first "#"); [discriminate Hrun |].
  remember (split (if is_digit first then lstrip (drop_digits (String first rest))
                   else String first rest)) as elements eqn:Helements.
  clear Helements Hlen. unfold run_command in Hrun.
  destruct elements as [| command_name args]; [discriminate Hrun |].
  destruct (has_arg_error (gtp_connection session) command_name (Z.of_nat (length args)))
    as [self arg_error] eqn:Harg.
  destruct arg_error; [discriminate Hrun |].
  pose proof (has_arg_error_passes _ _ _ _ Harg) as ->.
  assert (Hsame : with_connection session (gtp_connection session) = session)
    by (destruct session; reflexivity).
  rewrite Hsame in Hrun.
  destruct (dict_get commands command_name) as [run |] eqn:Hcmd; [| discriminate Hrun].
  destruct (run args session) as [[session1 [u | e1]] |] eqn:Hres;
    [discriminate Hrun | | discriminate Hrun].
  exists command_name, args, run, session1.
  destruct (is_Exception e1).
  - assert (He : e = e1) by congruence. subst e1.
    assert (Hsession : session' = debug_msg
              (debug_msg session1
                 (String.append "Error executing command "
                    (String.append (exception_str e) newline)))
              (String.append "Stack Trace:"
                 (String.append newline (String.append (format_exc e) newline))))
      by congruence.
    rewrite Hsession, !debug_msg_connection. auto.
  - assert (He : e = e1) by congruence. subst e1.
    assert (Hsession : session' = session1) by congruence.
    rewrite Hsession. auto.
Qed.

End DispatcherFacts.

(** ** The Gomoku board meets the further assumptions *)

Section GomokuGameFacts.

Import Gomoku GomokuGame.

Lemma filter_length_le {A : Type} (f' f : A -> bool) (l : list A) :
  (forall x, In x l -> f' x = true -> f x = true) ->
  (length (List.filter f' l) <= length (List.filter f l))%nat.
Proof.
  induction l as [| a l IH]; intros Himp; [simpl; lia |].
  assert (Hrest : (length (List.filter f' l) <= length (List.filter f l))%nat)
    by (apply IH; intros x Hx; apply Himp; right; exact Hx).
  simpl. destruct (f' a) eqn:Hf'.
  - rewrite (Himp a (or_introl eq_refl) Hf'). simpl. lia.
  - destruct (f a); simpl; lia.
Qed.

Lemma filter_length_lt {A : Type} (f' f : A -> bool) (l : list A) (i : A) :
  (forall x, In x l -> f' x = true -> f x = true) ->
  In i l -> f i = true -> f' i = false ->
  (length (List.filter f' l) < length (List.filter f l))%nat.
Proof.
  induction l as [| a l IH]; intros Himp Hin Hf Hf'; [contradiction |].
  assert (Hrest : forall x, In x l -> f' x = true -> f x = true)
    by (intros x Hx; apply Himp; right; exact Hx).
  destruct Hin as [-> | Hin].
  - simpl. rewrite Hf, Hf'. simpl.
    pose proof (filter_length_le f' f l Hrest). lia.
  - specialize (IH Hrest Hin Hf Hf'). simpl.
    destruct (f' a) eqn:Ha.
    + rewrite (Himp a (or_introl eq_refl) Ha). simpl. lia.
    + destruct (f a); simpl; lia.
Qed.

Lemma gomoku_play_fills (b : Position) (m : Z) :
  legit b -> In m (get_empty_points b) ->
  legit (play_move b m (current_player b))
  /\ (length (get_empty_points (play_move b m (current_player b)))
      < length (get_empty_points b))%nat.
Proof.
  destruct b as [n cs tp hist]. unfold legit. simpl. unfold empty_points. simpl.
  intros Hlegit Hin.
  apply List.in_map_iff in Hin. destruct Hin as (i & <- & Hi).
  apply List.filter_In in Hi. destruct Hi as [Hseq Hcol].
  pose proof Hseq as Hrange. apply List.in_seq in Hrange.
  unfold play, color_at. simpl.
  destruct (Z.ltb_spec (Z.of_nat i) 0) as [Hneg | _]; [lia |].
  rewrite Nat2Z.id, Hcol. simpl. split.
  - destruct Hlegit as [-> | ->]; [right | left]; reflexivity.
  - rewrite !length_map, length_insert.
    apply (filter_length_lt _ _ _ i); [| exact Hseq | exact Hcol |].
    + intros j _. destruct (Nat.eq_dec j i) as [-> | Hne].
      * rewrite nth_lookup, list_lookup_insert_eq by lia. simpl.
        destruct Hlegit as [-> | ->]; discriminate.
      * rewrite !nth_lookup, list_lookup_insert_ne by congruence. auto.
    + rewrite nth_lookup, list_lookup_insert_eq by lia. simpl.
      destruct Hlegit as [-> | ->]; reflexivity.
Qed.

Lemma draw_board_undo_play (b : DrawBoard) (m : Z) :
  In m (get_empty_points b) -> undoMove (play_move b m (current_player b)) = b.
Proof.
  destruct b as [p w]. simpl. intros Hin. unfold on_base. simpl.
  pose proof (gomoku_undo_play p m Hin) as Hundo. simpl in Hundo.
  rewrite Hundo. reflexivity.
Qed.

Lemma gomoku_copy_same (b : GoBoard Position Table) :
  pos (copy b) = pos b /\ hashTable (copy b) = hashTable b.
Proof. split; reflexivity. Qed.

Lemma gomoku_updateHash_takes_table (live searched : GoBoard Position Table) :
  pos (updateHash live searched) = pos live
  /\ hashTable (updateHash live searched) = hashTable searched.
Proof. split; reflexivity. Qed.

End GomokuGameFacts.

(** ** More concrete runs *)

Section MoreRuns.

Import Gomoku GomokuGame.

Lemma point_to_coord_layout_witness :
  0 <= 5 /\ point_to_coord (Point 11) 5 = Ok (Coord 1 5).
Proof.
  split; [lia |].
  apply (proj2 (point_to_coord_layout 11 5 1 5 ltac:(lia))). split; [reflexivity | lia].
Defined.

Lemma move_to_coord_in_range_witness :
  move_to_coord 25 "E1" 5 = Ok (Coord 1 5)
  /\ 2 <= 5 <= 25
  /\ ((Coord 1 5 = PASS /\ lower "E1" = "pass")
      \/ exists row col,
          Coord 1 5 = Coord row col /\ lower "E1" <> "pass"
          /\ 1 <= row <= 5 /\ 1 <= col <= 5).
Proof.
  assert (Hrun : move_to_coord 25 "E1" 5 = Ok (Coord 1 5)) by reflexivity.
  split; [exact Hrun | exact (move_to_coord_in_range 25 "E1" 5 (Coord 1 5) Hrun)].
Defined.

Lemma move_to_coord_raises_ValueError_witness :
  move_to_coord 25 "zz" 5 = Raise (ValueError "invalid point: 'zz'")
  /\ exists msg, ValueError "invalid point: 'zz'" = ValueError msg.
Proof.
  assert (Hrun : move_to_coord 25 "zz" 5 = Raise (ValueError "invalid point: 'zz'"))
    by reflexivity.
  split; [exact Hrun | exact (move_to_coord_raises_ValueError 25 "zz" 5 _ Hrun)].
Defined.

Lemma move_to_coord_rejects_I_witness :
  ("I"%char = "i"%char \/ "I"%char = "I"%char) /\ 2 <= 19 <= 25
  /\ move_to_coord 25 "I3" 19 = Raise (ValueError "invalid point: 'i3'").
Proof.
  split; [right; reflexivity |]. split; [lia |].
  apply (move_to_coord_rejects_I 25 "I" "3" 19); [right; reflexivity | lia].
Defined.

Lemma format_point_injective_witness :
  format_point 25 (Coord 3 4) = Ok "D3" /\ 3 = 3 /\ 4 = 4.
Proof.
  assert (Hs : format_point 25 (Coord 3 4) = Ok "D3") by reflexivity.
  split; [exact Hs |].
  apply (format_point_injective 25 3 4 3 4 "D3"); try lia; exact Hs.
Defined.

Lemma point_text_round_trip_witness :
  (25 <= 25 /\ 2 <= 5 < 25 /\ 1 <= 1 <= 5 /\ 1 <= 5 <= 5)
  /\ exists s,
       bind (point_to_coord (Point (1 * (5 + 1) + 5)) 5) (format_point 25) = Ok s
       /\ move_to_coord 25 s 5 = Ok (Coord 1 5).
Proof.
  split; [lia |]. apply (point_text_round_trip 25 5 1 5); lia.
Defined.

Lemma format_point_accepts_zero_witness :
  (25 <= 25 /\ 0 <= 0 < 25)
  /\ exists c, format_point 25 (Coord 0 0) = Ok (String c (py_str 0))
       /\ (0 = 0 -> c = "Z"%char).
Proof.
  split; [lia |]. apply (format_point_accepts_zero 25 0 0); lia.
Defined.

Lemma color_to_int_lowered_witness :
  color_to_int (lower "B") = Returns BLACK
  /\ ((lower "B" = "b" /\ BLACK = BLACK) \/ (lower "B" = "w" /\ BLACK = WHITE)
      \/ (lower "B" = "e" /\ BLACK = EMPTY)).
Proof.
  assert (Hrun : color_to_int (lower "B") = Returns BLACK) by reflexivity.
  split; [exact Hrun | exact (color_to_int_lowered "B" BLACK Hrun)].
Defined.

Lemma solve_cmd_silent_in_genmove_witness :
  exists self' ret,
    solve_cmd 25 INF 20 false (set_genMoveRunning (connection open_four 1) true)
    = Some (self', ret)
    /\ stdout self' = [].
Proof.
  destruct (solve_cmd_silent_in_genmove 25 INF 20 false
              (set_genMoveRunning (connection open_four 1) true))
    as (self' & ret & Hrun & Hout & _); [reflexivity | vm_compute; lia |].
  exists self', ret. split; [exact Hrun | exact Hout].
Defined.

Lemma alphabeta_restores_board_witness :
  exists v mv state' out',
    alphabeta 5 tiny (- INF) INF 0 INF [] = Some (v, mv, (state', out'))
    /\ state' = tiny.
Proof.
  destruct (alphabeta 5 tiny (- INF) INF 0 INF []) as [[[v mv] [state' out']] |] eqn:Hrun;
    [| apply (f_equal returned) in Hrun; vm_compute in Hrun; discriminate Hrun].
  exists v, mv, state', out'. split; [reflexivity |].
  exact (proj1 (alphabeta_restores_board gomoku_undo_play 5 tiny (- INF) INF 0 INF []
                  v mv state' out' Hrun)).
Defined.

Lemma alphabeta_within_window_witness :
  exists v mv state' out',
    alphabeta 5 tiny (- INF) INF 0 INF [] = Some (v, mv, (state', out'))
    /\ - INF <= v <= INF.
Proof.
  destruct (alphabeta 5 tiny (- INF) INF 0 INF []) as [[[v mv] [state' out']] |] eqn:Hrun;
    [| apply (f_equal returned) in Hrun; vm_compute in Hrun; discriminate Hrun].
  exists v, mv, state', out'. split; [reflexivity |].
  destruct (alphabeta_within_window 5 tiny (- INF) INF 0 INF [] v mv state' out' Hrun)
    as [_ Hinner].
  apply Hinner; [vm_compute; reflexivity | vm_compute; discriminate].
Defined.

Lemma alphabeta_quiet_below_moveDepth_witness :
  exists v mv state' out',
    alphabeta 5 tiny (- INF) INF 0 0 [] = Some (v, mv, (state', out'))
    /\ mv = -1 /\ out' = [].
Proof.
  destruct (alphabeta 5 tiny (- INF) INF 0 0 []) as [[[v mv] [state' out']] |] eqn:Hrun;
    [| apply (f_equal returned) in Hrun; vm_compute in Hrun; discriminate Hrun].
  exists v, mv, state', out'. split; [reflexivity |].
  apply (alphabeta_quiet_below_moveDepth 5 tiny (- INF) INF 0 0 [] v mv state' out');
    [lia | exact Hrun].
Defined.

Lemma negamaxBoolean_restores_board_witness :
  exists v mv state' out',
    negamaxBoolean 5 tiny 0 INF [] = Some (v, mv, (state', out'))
    /\ state' = tiny.
Proof.
  destruct (negamaxBoolean 5 tiny 0 INF []) as [[[v mv] [state' out']] |] eqn:Hrun;
    [| apply (f_equal returned) in Hrun; vm_compute in Hrun; discriminate Hrun].
  exists v, mv, state', out'. split; [reflexivity |].
  exact (proj1 (negamaxBoolean_restores_board gomoku_undo_play 5 tiny 0 INF []
                  v mv state' out' Hrun)).
Defined.

Lemma plain_searches_return_witness :
  (legit tiny /\ (length (get_empty_points tiny) < 5)%nat)
  /\ (exists r, alphabeta 5 tiny (- INF) INF 0 INF [] = Some r)
  /\ (exists r, negamaxBoolean 5 tiny 0 INF [] = Some r).
Proof.
  assert (Hlegit : legit tiny) by (left; reflexivity).
  assert (Hfuel : (length (get_empty_points tiny) < 5)%nat) by (vm_compute; lia).
  split; [split; assumption |].
  apply (plain_searches_return gomoku_undo_play legit gomoku_play_fills
           5 tiny (- INF) INF 0 INF [] Hlegit Hfuel).
Defined.

Lemma solveForColor_leaves_drawWinner_witness :
  exists code mv state' out',
    solveForColor INF 5 (mkDrawBoard tiny EMPTY) BLACK [] = Some (code, mv, (state', out'))
    /\ (code = 1 \/ code = 0 \/ code = -1).
Proof.
  destruct (solveForColor INF 5 (mkDrawBoard tiny EMPTY) BLACK [])
    as [[[code mv] [state' out']] |] eqn:Hrun;
    [| apply (f_equal returned) in Hrun; vm_compute in Hrun; discriminate Hrun].
  exists code, mv, state', out'. split; [reflexivity |].
  exact (proj1 (solveForColor_leaves_drawWinner INF draw_board_undo_play 5
                  (mkDrawBoard tiny EMPTY) BLACK [] code mv state' out' Hrun)).
Defined.

Lemma alphabeta_tt_records_value_witness :
  exists v state' table',
    alphabeta_tt 2 tiny (- INF) INF empty_table 0 INF 1 = Some (v, (state', table'))
    /\ exists mv, tt_lookup table' (hash tiny) = Some (Some v, mv).
Proof.
  destruct (alphabeta_tt 2 tiny (- INF) INF empty_table 0 INF 1)
    as [[v [state' table']] |] eqn:Hrun;
    [| apply (f_equal returned) in Hrun; vm_compute in Hrun; discriminate Hrun].
  exists v, state', table'. split; [reflexivity |].
  exact (proj1 (alphabeta_tt_records_value gomoku_undo_play gomoku_lookup_stored
                  1 tiny (- INF) INF empty_table 0 INF 1 v state' table' Hrun)).
Defined.

Lemma iterativeDeepening_records_root_witness :
  (get_empty_points (pos tiny_board) <> []
   /\ (length (get_empty_points (pos tiny_board)) < 5)%nat)
  /\ exists r b',
       iterativeDeepening INF 5 tiny_board = Some (r, b')
       /\ pos b' = tiny.
Proof.
  assert (Hpoints : get_empty_points (pos tiny_board) <> []) by (vm_compute; discriminate).
  assert (Hfuel : (length (get_empty_points (pos tiny_board)) < 5)%nat)
    by (vm_compute; lia).
  split; [split; assumption |].
  destruct (iterativeDeepening_records_root INF gomoku_undo_play gomoku_lookup_stored
              5 tiny_board Hpoints Hfuel) as (r & b' & Hrun & Hpos & _).
  exists r, b'. split; [exact Hrun | exact Hpos].
Defined.

Lemma genmove_cmd_answers_once_witness :
  (length (get_empty_points (pos (copy (board (connection open_four 1))))) < 20)%nat
  /\ exists self' o,
       genmove_cmd 25 INF 20 false (Point 13) ["b"] (connection open_four 1)
       = Some (self', o)
       /\ time self' = 1.
Proof.
  assert (Hfuel : (length (get_empty_points (pos (copy (board (connection open_four 1)))))
                   < 20)%nat) by (vm_compute; lia).
  split; [exact Hfuel |].
  destruct (genmove_cmd_answers_once 25 INF 20 false (Point 13) ["b"]
              (connection open_four 1) Hfuel) as (self' & o & Hrun & Htime & _).
  exists self', o. split; [exact Hrun | exact Htime].
Defined.

Lemma genmove_cmd_plays_its_answer_witness :
  exists self' o,
    genmove_cmd 25 INF 20 false (Point 13) ["b"] (connection open_four 1) = Some (self', o)
    /\ (pos (board self') = open_four
        \/ exists move color text,
            move_text 25 (connection open_four 1) move = Ok text
            /\ pos (board self') = play_move_any open_four move color
            /\ stdout self' = [written text]).
Proof.
  destruct (genmove_cmd 25 INF 20 false (Point 13) ["b"] (connection open_four 1))
    as [[self' o] |] eqn:Hrun;
    [| apply (f_equal returned) in Hrun; vm_compute in Hrun; discriminate Hrun].
  exists self', o. split; [reflexivity |].
  destruct (genmove_cmd_plays_its_answer 25 INF gomoku_updateHash_keeps_position
              20 false (Point 13) ["b"] (connection open_four 1) self' o Hrun)
    as [Hsame | (a & rest & move & color & text & _ & _ & Htext & Hpos & Hout & _)].
  - left. exact Hsame.
  - right. exists move, color, text. split; [exact Htext | split; [exact Hpos | exact Hout]].
Defined.

Lemma time_limit_cmd_stores_budget_witness :
  py_int "0" = Ok 0
  /\ exists self1,
       time_limit_cmd ["0"] (connection open_four 1) = (self1, Returns tt)
       /\ time self1 = 0
       /\ forall fuel deadline,
            solve_cmd 25 INF fuel deadline self1 = solve_cmd 25 INF fuel false self1.
Proof.
  assert (Hint : py_int "0" = Ok 0) by reflexivity.
  split; [exact Hint |].
  destruct (time_limit_cmd_stores_budget 25 INF "0" [] (connection open_four 1) 0 Hint)
    as (self1 & Hrun & Htime & _ & _ & _ & Hsolve & _).
  exists self1. split; [exact Hrun | split; [exact Htime | exact (Hsolve eq_refl)]].
Defined.

Example time_limit_beyond_C_int :
  option_map (fun r => stdout (fst r))
    (solve_cmd 25 INF 20 false (fst (time_limit_cmd ["2147483648"] (connection open_four 1))))
  = Some [written ""; written "unknown"].
Proof. vm_compute. reflexivity. Qed.

Example py_int_white_space :
  py_int (String "011" (String "5" (String "010" EmptyString))) = Ok 5
  /\ exists msg, py_int (String "028" "5") = Raise (ValueError msg).
Proof. split; [reflexivity | eexists; reflexivity]. Qed.

Lemma solve_cmd_full_board_unknown_witness :
  (get_empty_points (pos (board (connection full 1))) = []
   /\ tt_lookup (hashTable (board (connection full 1))) (hash (pos (board (connection full 1))))
      = None)
  /\ exists self',
       solve_cmd 25 INF 1 false (connection full 1) = Some (self', PASS)
       /\ stdout self' = [written "unknown"].
Proof.
  assert (Hfull : get_empty_points (pos (board (connection full 1))) = [])
    by (vm_compute; reflexivity).
  assert (Hnone : tt_lookup (hashTable (board (connection full 1)))
                    (hash (pos (board (connection full 1)))) = None)
    by (vm_compute; reflexivity).
  split; [split; assumption |].
  destruct (solve_cmd_full_board_unknown 25 INF gomoku_copy_same gomoku_updateHash_takes_table
              1 false (connection full 1) eq_refl Hfull Hnone) as (self' & Hrun & Hout & _).
  exists self'. split; [exact Hrun | exact Hout].
Defined.

Lemma solve_cmd_finds_root_entry_witness :
  (get_empty_points (pos (board (connection open_four 1))) <> []
   /\ (length (get_empty_points (pos (board (connection open_four 1)))) < 20)%nat)
  /\ exists r b mv,
       iterativeDeepening INF 20 (copy (board (connection open_four 1))) = Some (r, b)
       /\ recorded_move (set_board (connection open_four 1)
                           (updateHash (board (connection open_four 1)) b)) = Ok mv.
Proof.
  assert (Hpoints : get_empty_points (pos (board (connection open_four 1))) <> [])
    by (vm_compute; discriminate).
  assert (Hfuel : (length (get_empty_points (pos (board (connection open_four 1)))) < 20)%nat)
    by (vm_compute; lia).
  split; [split; assumption |].
  destruct (solve_cmd_finds_root_entry INF gomoku_copy_same gomoku_updateHash_takes_table
              gomoku_undo_play gomoku_lookup_stored 20 (connection open_four 1)
              Hpoints Hfuel) as (r & b & mv & Hrun & _ & Hmove).
  exists r, b, mv. split; [exact Hrun | exact Hmove].
Defined.

Lemma get_cmd_skips_blank_and_comment_witness :
  get_cmd only_timelimit no_text no_text "# a comment" (fresh_session tiny)
  = Some (fresh_session tiny, Returns tt).
Proof.
  apply (get_cmd_skips_blank_and_comment only_timelimit no_text no_text).
  right. eexists. reflexivity.
Defined.

Lemma get_cmd_drops_number_witness :
  get_cmd only_timelimit no_text no_text "10 timelimit 5" (fresh_session tiny)
  = get_cmd only_timelimit no_text no_text "timelimit 5" (fresh_session tiny).
Proof.
  apply (get_cmd_drops_number only_timelimit no_text no_text "10" " " "t" "imelimit 5");
    try reflexivity; discriminate.
Defined.

Lemma get_cmd_raises_only_from_command_witness :
  exists session' e command_name args run session1,
    get_cmd only_timelimit no_text no_text "timelimit" (fresh_session tiny)
    = Some (session', Raises e)
    /\ dict_get only_timelimit command_name = Some run
    /\ run args (fresh_session tiny) = Some (session1, Raises e).
Proof.
  assert (Hrun : get_cmd only_timelimit no_text no_text "timelimit" (fresh_session tiny)
                 = Some (fresh_session tiny,
                         Raises (Builtin IndexError)))
    by (vm_compute; reflexivity).
  destruct (get_cmd_raises_only_from_command only_timelimit no_text no_text
              "timelimit" (fresh_session tiny) _ _ Hrun)
    as (command_name & args & run & session1 & Hcmd & _ & Hres & _).
  exists (fresh_session tiny), (Builtin IndexError),
    command_name, args, run, session1.
  split; [exact Hrun | split; [exact Hcmd | exact Hres]].
Defined.

Example get_cmd_timelimit :
  option_map (fun r => time (gtp_connection (fst r)))
    (get_cmd only_timelimit no_text no_text "10 timelimit 5" (fresh_session tiny))
  = Some 5.
Proof. vm_compute. reflexivity. Qed.

Example get_cmd_unknown_command :
  option_map (fun r => stdout (gtp_connection (fst r)))
    (get_cmd only_timelimit no_text no_text "frobnicate" (fresh_session tiny))
  = Some ["? Unknown command" ++ newline ++ newline]%string.
Proof. vm_compute. reflexivity. Qed.

Example genmove_open_four :
  option_map (fun r => stdout (fst r))
    (genmove_cmd 25 INF 20 false (Point 13) ["b"] (connection open_four 1))
  = Some [written "E1"].
Proof. vm_compute. reflexivity. Qed.

Example split_words : split "  play  b   a1 " = ["play"; "b"; "a1"].
Proof. reflexivity. Qed.

End MoreRuns.
